(** * remote-connection.ts: the session coordinator of a peer-to-peer relay

    A shallow embedding of [src/generic_core/remote-connection.ts]: the
    [RemoteConnection] class with its two role engines ([RtcToNet] for
    sharing, [SocksToRtc] for getting), the callbacks it registers on the
    engines' promises and event queues, the debounced state refresh and
    the proxying-session-id generator.

    JavaScript runs the class on a single thread: every public method and
    every registered callback runs to completion before the next one
    starts.  The embedding therefore has one function per method and per
    callback, written in a small state/output/exception monad, and an event
    type whose constructors are the method calls of the owner and the
    callback invocations of the environment (promise reactions, queue
    handlers, timers). *)

From Stdlib Require Import ZArith QArith Qround String Ascii List Bool Lia.
From stdpp Require Import base list.
Import ListNotations.

Local Open Scope string_scope.
Local Open Scope list_scope.
Local Open Scope Z_scope.

(** ** Data model *)

(** [social.GettingState] and [social.SharingState]. *)
Module GettingState.
Inductive t := NONE | TRYING_TO_GET_ACCESS | GETTING_ACCESS.

Definition eqb (a b : t) : bool :=
  match a, b with
  | NONE, NONE | TRYING_TO_GET_ACCESS, TRYING_TO_GET_ACCESS
  | GETTING_ACCESS, GETTING_ACCESS => true
  | _, _ => false
  end.
End GettingState.

Module SharingState.
Inductive t := NONE | TRYING_TO_SHARE_ACCESS | SHARING_ACCESS.

Definition eqb (a b : t) : bool :=
  match a, b with
  | NONE, NONE | TRYING_TO_SHARE_ACCESS, TRYING_TO_SHARE_ACCESS
  | SHARING_ACCESS, SHARING_ACCESS => true
  | _, _ => false
  end.
End SharingState.

(** [social.PeerMessageType]: the enum has more members than the two this
    file dispatches on; the others are kept by their numeric code. *)
Module PeerMessageType.
Inductive t :=
| SIGNAL_FROM_CLIENT_PEER
| SIGNAL_FROM_SERVER_PEER
| OTHER (code : Z).
End PeerMessageType.

(** [net.Endpoint]. *)
Record Endpoint := { address : string; port : Z }.

(** What the [signals] member of a [bridge.SignallingMessage] holds is
    opaque to this file. *)
Definition SignallingMessage := list string.

(** The [data] of a [social.PeerMessage] as [handleSignal] probes it: the
    [signals] field is present or [undefined], and so is [proxyingId]. *)
Record MessageData := {
  signals : option SignallingMessage;
  proxyingId : option string
}.

Record PeerMessage := {
  type : PeerMessageType.t;
  data : MessageData
}.

(** [uproxy_core_api.ConnectionState], as built by [getCurrentState]. *)
Record ConnectionState := {
  bytesSent : Z;
  bytesReceived : Z;
  localGettingFromRemote : GettingState.t;
  localSharingWithRemote : SharingState.t;
  cs_activeEndpoint : option Endpoint
}.

(** Engines are objects; a reference to one is its creation index. *)
Definition EngineId := nat.

(** The transformer argument of [bridge.holographicIceOnly]. *)
Record TransformerConfig := { name : string; config : string }.

(** The peer connection handed to an engine, by the call that builds it. *)
Inductive PeerConnection :=
| PeerConnectionClass (name : string)
| bridge_best (name : string)
| bridge_preObfuscation (name : string)
| bridge_basicObfuscation (name : string)
| bridge_holographicIceOnly (name : string) (transformer : option TransformerConfig).

(** [rtc_to_net.Status]. *)
Inductive Status := REPROXY_ERROR | REPROXY_WORKING | UNRECOGNIZED (code : Z).

(** The promises the class hands to its callers. *)
Inductive Promise :=
| Promise_resolve                      (* Promise.resolve<void>() *)
| RtcToNet_onceReady (e : EngineId)    (* this.rtcToNet_.onceReady *)
| sharingReset (e : EngineId)          (* rtcToNet_.onceStopped.then(cleanup) *)
| SocksToRtc_started (e : EngineId)    (* socksToRtc_.start(..).then(..).catch(..) *)
| SocksToRtc_stopped (e : EngineId).   (* socksToRtc_.stop() *)

(** What a method declared to return a promise actually returns. *)
Inductive JSResult :=
| JS_undefined
| JS_null
| JS_promise (p : Promise).

(** [JSError m] is [new Error(m)].  [TypeError] is the error the runtime
    raises for a call through [null]; its message is the runtime's own
    and is not part of this file. *)
Inductive Error :=
| JSError (message : string)
| TypeError.

Inductive Settlement :=
| fulfilled_void
| fulfilled_with (endpoint : Endpoint)
| rejected (e : Error).

(** [uproxy_core_api.Update] together with the data sent along. *)
Inductive Update :=
| SIGNALLING_MESSAGE (type : PeerMessageType.t) (data : MessageData)
| START_GIVING
| STOP_GIVING
| STOP_GETTING (isError : bool)
| UPDATE_REPROXY_ERROR
| UPDATE_REPROXY_WORKING
| STATE (s : ConnectionState).

Inductive LogLevel := debug | info | warn | error.

(** Everything a method or callback does to the outside world. *)
Inductive Effect :=
| log (level : LogLevel) (message : string)
| sendUpdate (u : Update)
| metrics_increment (counter : string)
| RtcToNet_start (e : EngineId) (pc : PeerConnection)
| RtcToNet_stop (e : EngineId)
| RtcToNet_handleSignalFromPeer (e : EngineId) (signal : MessageData)
| SocksToRtc_start (e : EngineId) (pc : PeerConnection)
| SocksToRtc_stop (e : EngineId)
| SocksToRtc_handleSignalFromPeer (e : EngineId) (signal : MessageData)
| setTimeout (ms : Z)
| settle (p : Promise) (s : Settlement).

(** The fields of [RemoteConnection].  [null] and [undefined] are [None].
    [onceSharerCreated] is the barrier promise; only whether the current
    one is fulfilled matters here. *)
Record RemoteConnection := {
  localGettingFromRemote_ : GettingState.t;
  localSharingWithRemote_ : SharingState.t;
  bytesSent_ : Z;
  bytesReceived_ : Z;
  socksToRtc_ : option EngineId;
  rtcToNet_ : option EngineId;
  isUpdatePending_ : bool;
  onceSharerCreated : bool;
  sharingReset_ : option Promise;
  activeEndpoint : option Endpoint;
  proxyingId_ : option string
}.

(** What the environment remembers of one engine: whether its ready (or
    start) promise is settled, whether its stopped (or stopping) promise is
    fulfilled, and whether [stop()] was called on it. *)
Record EngineStatus := {
  readySettled : bool;
  stopFired : bool;
  stopRequested : bool
}.

Definition fresh_engine : EngineStatus :=
  {| readySettled := false; stopFired := false; stopRequested := false |}.

(** The session and its environment: the engines ever created, the number
    of calls made so far to [Math.random] and [rc4.randomConfig], and the
    timers not yet fired. *)
Record World := {
  conn : RemoteConnection;
  rtcToNets : list EngineStatus;
  socksToRtcs : list EngineStatus;
  randomCalls : nat;
  rc4Calls : nat;
  pendingTimeouts : nat
}.

(** [constants.MESSAGE_VERSIONS]: the module is not part of this file, so
    the tier numbers are taken as given. *)
Record MESSAGE_VERSIONS_t := {
  PRE_BRIDGE : Z;
  BRIDGE : Z;
  CAESAR : Z;
  HOLOGRAPHIC_ICE : Z;
  ENCRYPTED_SIGNALS : Z
}.

(** What the session reads from other modules: the version constants,
    [globals.effectiveMessageVersion()], the successive results of
    [Math.random()] (exact numbers; rounding of doubles is not modelled)
    and of [JSON.stringify(rc4.randomConfig())]. *)
Record Env := {
  MESSAGE_VERSIONS : MESSAGE_VERSIONS_t;
  effectiveMessageVersion : Z;
  Math_random : nat -> Q;
  rc4_randomConfig : nat -> string
}.

(** ** The monad of methods and callbacks: state, output and exceptions *)

Inductive Outcome (A : Type) :=
| Returned (a : A)
| Thrown (e : Error).
Arguments Returned {A} a.
Arguments Thrown {A} e.

Definition M (A : Type) : Type := World -> Outcome A * World * list Effect.

Definition ret {A} (a : A) : M A := fun w => (Returned a, w, []).

Definition bind {A B} (m : M A) (k : A -> M B) : M B :=
  fun w =>
    match m w with
    | (Returned a, w1, fx1) =>
        match k a w1 with
        | (r, w2, fx2) => (r, w2, fx1 ++ fx2)
        end
    | (Thrown e, w1, fx1) => (Thrown e, w1, fx1)
    end.

Definition throw {A} (e : Error) : M A := fun w => (Thrown e, w, []).

Definition emit (x : Effect) : M unit := fun w => (Returned tt, w, [x]).

Definition this : M RemoteConnection := fun w => (Returned (conn w), w, []).

Definition world : M World := fun w => (Returned w, w, []).

Definition set_world (f : World -> World) : M unit :=
  fun w => (Returned tt, f w, []).

Declare Scope js_scope.
Delimit Scope js_scope with js.
Notation "x <- m ;; k" := (bind m (fun x => k))
  (at level 100, m at next level, k at level 200, right associativity) : js_scope.
Notation "m ;; k" := (bind m (fun _ => k))
  (at level 100, k at level 200, right associativity) : js_scope.
Local Open Scope js_scope.

Definition with_conn (f : RemoteConnection -> RemoteConnection) (w : World) : World :=
  {| conn := f (conn w);
     rtcToNets := rtcToNets w;
     socksToRtcs := socksToRtcs w;
     randomCalls := randomCalls w;
     rc4Calls := rc4Calls w;
     pendingTimeouts := pendingTimeouts w |}.

Definition set_this (f : RemoteConnection -> RemoteConnection) : M unit :=
  set_world (with_conn f).

(** Field assignments [this.f = v]. *)
Definition set_localGettingFromRemote (v : GettingState.t) (c : RemoteConnection) :=
  {| localGettingFromRemote_ := v;
     localSharingWithRemote_ := localSharingWithRemote_ c;
     bytesSent_ := bytesSent_ c; bytesReceived_ := bytesReceived_ c;
     socksToRtc_ := socksToRtc_ c; rtcToNet_ := rtcToNet_ c;
     isUpdatePending_ := isUpdatePending_ c;
     onceSharerCreated := onceSharerCreated c;
     sharingReset_ := sharingReset_ c;
     activeEndpoint := activeEndpoint c; proxyingId_ := proxyingId_ c |}.

Definition set_localSharingWithRemote (v : SharingState.t) (c : RemoteConnection) :=
  {| localGettingFromRemote_ := localGettingFromRemote_ c;
     localSharingWithRemote_ := v;
     bytesSent_ := bytesSent_ c; bytesReceived_ := bytesReceived_ c;
     socksToRtc_ := socksToRtc_ c; rtcToNet_ := rtcToNet_ c;
     isUpdatePending_ := isUpdatePending_ c;
     onceSharerCreated := onceSharerCreated c;
     sharingReset_ := sharingReset_ c;
     activeEndpoint := activeEndpoint c; proxyingId_ := proxyingId_ c |}.

Definition set_bytesSent_ (v : Z) (c : RemoteConnection) :=
  {| localGettingFromRemote_ := localGettingFromRemote_ c;
     localSharingWithRemote_ := localSharingWithRemote_ c;
     bytesSent_ := v; bytesReceived_ := bytesReceived_ c;
     socksToRtc_ := socksToRtc_ c; rtcToNet_ := rtcToNet_ c;
     isUpdatePending_ := isUpdatePending_ c;
     onceSharerCreated := onceSharerCreated c;
     sharingReset_ := sharingReset_ c;
     activeEndpoint := activeEndpoint c; proxyingId_ := proxyingId_ c |}.

Definition set_bytesReceived_ (v : Z) (c : RemoteConnection) :=
  {| localGettingFromRemote_ := localGettingFromRemote_ c;
     localSharingWithRemote_ := localSharingWithRemote_ c;
     bytesSent_ := bytesSent_ c; bytesReceived_ := v;
     socksToRtc_ := socksToRtc_ c; rtcToNet_ := rtcToNet_ c;
     isUpdatePending_ := isUpdatePending_ c;
     onceSharerCreated := onceSharerCreated c;
     sharingReset_ := sharingReset_ c;
     activeEndpoint := activeEndpoint c; proxyingId_ := proxyingId_ c |}.

Definition set_socksToRtc_ (v : option EngineId) (c : RemoteConnection) :=
  {| localGettingFromRemote_ := localGettingFromRemote_ c;
     localSharingWithRemote_ := localSharingWithRemote_ c;
     bytesSent_ := bytesSent_ c; bytesReceived_ := bytesReceived_ c;
     socksToRtc_ := v; rtcToNet_ := rtcToNet_ c;
     isUpdatePending_ := isUpdatePending_ c;
     onceSharerCreated := onceSharerCreated c;
     sharingReset_ := sharingReset_ c;
     activeEndpoint := activeEndpoint c; proxyingId_ := proxyingId_ c |}.

Definition set_rtcToNet_ (v : option EngineId) (c : RemoteConnection) :=
  {| localGettingFromRemote_ := localGettingFromRemote_ c;
     localSharingWithRemote_ := localSharingWithRemote_ c;
     bytesSent_ := bytesSent_ c; bytesReceived_ := bytesReceived_ c;
     socksToRtc_ := socksToRtc_ c; rtcToNet_ := v;
     isUpdatePending_ := isUpdatePending_ c;
     onceSharerCreated := onceSharerCreated c;
     sharingReset_ := sharingReset_ c;
     activeEndpoint := activeEndpoint c; proxyingId_ := proxyingId_ c |}.

Definition set_isUpdatePending_ (v : bool) (c : RemoteConnection) :=
  {| localGettingFromRemote_ := localGettingFromRemote_ c;
     localSharingWithRemote_ := localSharingWithRemote_ c;
     bytesSent_ := bytesSent_ c; bytesReceived_ := bytesReceived_ c;
     socksToRtc_ := socksToRtc_ c; rtcToNet_ := rtcToNet_ c;
     isUpdatePending_ := v;
     onceSharerCreated := onceSharerCreated c;
     sharingReset_ := sharingReset_ c;
     activeEndpoint := activeEndpoint c; proxyingId_ := proxyingId_ c |}.

Definition set_onceSharerCreated (v : bool) (c : RemoteConnection) :=
  {| localGettingFromRemote_ := localGettingFromRemote_ c;
     localSharingWithRemote_ := localSharingWithRemote_ c;
     bytesSent_ := bytesSent_ c; bytesReceived_ := bytesReceived_ c;
     socksToRtc_ := socksToRtc_ c; rtcToNet_ := rtcToNet_ c;
     isUpdatePending_ := isUpdatePending_ c;
     onceSharerCreated := v;
     sharingReset_ := sharingReset_ c;
     activeEndpoint := activeEndpoint c; proxyingId_ := proxyingId_ c |}.

Definition set_sharingReset_ (v : option Promise) (c : RemoteConnection) :=
  {| localGettingFromRemote_ := localGettingFromRemote_ c;
     localSharingWithRemote_ := localSharingWithRemote_ c;
     bytesSent_ := bytesSent_ c; bytesReceived_ := bytesReceived_ c;
     socksToRtc_ := socksToRtc_ c; rtcToNet_ := rtcToNet_ c;
     isUpdatePending_ := isUpdatePending_ c;
     onceSharerCreated := onceSharerCreated c;
     sharingReset_ := v;
     activeEndpoint := activeEndpoint c; proxyingId_ := proxyingId_ c |}.

Definition set_activeEndpoint (v : option Endpoint) (c : RemoteConnection) :=
  {| localGettingFromRemote_ := localGettingFromRemote_ c;
     localSharingWithRemote_ := localSharingWithRemote_ c;
     bytesSent_ := bytesSent_ c; bytesReceived_ := bytesReceived_ c;
     socksToRtc_ := socksToRtc_ c; rtcToNet_ := rtcToNet_ c;
     isUpdatePending_ := isUpdatePending_ c;
     onceSharerCreated := onceSharerCreated c;
     sharingReset_ := sharingReset_ c;
     activeEndpoint := v; proxyingId_ := proxyingId_ c |}.

Definition set_proxyingId_ (v : option string) (c : RemoteConnection) :=
  {| localGettingFromRemote_ := localGettingFromRemote_ c;
     localSharingWithRemote_ := localSharingWithRemote_ c;
     bytesSent_ := bytesSent_ c; bytesReceived_ := bytesReceived_ c;
     socksToRtc_ := socksToRtc_ c; rtcToNet_ := rtcToNet_ c;
     isUpdatePending_ := isUpdatePending_ c;
     onceSharerCreated := onceSharerCreated c;
     sharingReset_ := sharingReset_ c;
     activeEndpoint := activeEndpoint c; proxyingId_ := v |}.

(** ** The environment: constructors, engine methods, random sources, timers *)

Definition request_stop (st : EngineStatus) : EngineStatus :=
  {| readySettled := readySettled st; stopFired := stopFired st;
     stopRequested := true |}.

Definition settle_ready (st : EngineStatus) : EngineStatus :=
  {| readySettled := true; stopFired := stopFired st;
     stopRequested := stopRequested st |}.

Definition fire_stop (st : EngineStatus) : EngineStatus :=
  {| readySettled := readySettled st; stopFired := true;
     stopRequested := stopRequested st |}.

Definition with_rtcToNets (f : list EngineStatus -> list EngineStatus) (w : World) :=
  {| conn := conn w; rtcToNets := f (rtcToNets w);
     socksToRtcs := socksToRtcs w; randomCalls := randomCalls w;
     rc4Calls := rc4Calls w; pendingTimeouts := pendingTimeouts w |}.

Definition with_socksToRtcs (f : list EngineStatus -> list EngineStatus) (w : World) :=
  {| conn := conn w; rtcToNets := rtcToNets w;
     socksToRtcs := f (socksToRtcs w); randomCalls := randomCalls w;
     rc4Calls := rc4Calls w; pendingTimeouts := pendingTimeouts w |}.

Definition with_randomCalls (f : nat -> nat) (w : World) :=
  {| conn := conn w; rtcToNets := rtcToNets w;
     socksToRtcs := socksToRtcs w; randomCalls := f (randomCalls w);
     rc4Calls := rc4Calls w; pendingTimeouts := pendingTimeouts w |}.

Definition with_rc4Calls (f : nat -> nat) (w : World) :=
  {| conn := conn w; rtcToNets := rtcToNets w;
     socksToRtcs := socksToRtcs w; randomCalls := randomCalls w;
     rc4Calls := f (rc4Calls w); pendingTimeouts := pendingTimeouts w |}.

Definition with_pendingTimeouts (f : nat -> nat) (w : World) :=
  {| conn := conn w; rtcToNets := rtcToNets w;
     socksToRtcs := socksToRtcs w; randomCalls := randomCalls w;
     rc4Calls := rc4Calls w; pendingTimeouts := f (pendingTimeouts w) |}.

(** [new rtc_to_net.RtcToNet(..)] and [new socks_to_rtc.SocksToRtc()]. *)
Definition new_RtcToNet : M EngineId :=
  w <- world ;;
  set_world (with_rtcToNets (fun l => l ++ [fresh_engine])) ;;
  ret (length (rtcToNets w)).

Definition new_SocksToRtc : M EngineId :=
  w <- world ;;
  set_world (with_socksToRtcs (fun l => l ++ [fresh_engine])) ;;
  ret (length (socksToRtcs w)).

(** [this.rtcToNet_.stop()] and [this.socksToRtc_.stop()]: a call through a
    null reference raises a TypeError. *)
Definition rtcToNet_stop (ref : option EngineId) : M unit :=
  match ref with
  | Some e =>
      emit (RtcToNet_stop e) ;;
      set_world (with_rtcToNets (alter request_stop e))
  | None => throw TypeError
  end.

Definition socksToRtc_stop (ref : option EngineId) : M JSResult :=
  match ref with
  | Some e =>
      emit (SocksToRtc_stop e) ;;
      set_world (with_socksToRtcs (alter request_stop e)) ;;
      ret (JS_promise (SocksToRtc_stopped e))
  | None => throw TypeError
  end.

(** ** The class *)

Section RemoteConnection.

Variable env : Env.

(** [Math.random()]: the next number of the source. *)
Definition Math_random_call : M Q :=
  w <- world ;;
  set_world (with_randomCalls S) ;;
  ret (Math_random env (randomCalls w)).

(** [JSON.stringify(rc4.randomConfig())]: the next key of the source. *)
Definition rc4_randomConfig_call : M string :=
  w <- world ;;
  set_world (with_rc4Calls S) ;;
  ret (rc4_randomConfig env (rc4Calls w)).

(** [String.fromCharCode], on the codes below 256. *)
Definition String_fromCharCode (c : Z) : string :=
  String (ascii_of_N (Z.to_N c)) EmptyString.

Definition PROXYING_SESSION_ID_LENGTH : nat := 16.

(** The product is exact here; the code rounds it to a double before
    the floor, which can move a draw that lies within one rounding of a
    letter boundary to the neighbouring letter. *)
Definition randomCharCode (a b : Z) : M Z :=
  r <- Math_random_call ;;
  ret (a + Qfloor (r * inject_Z (b - a))).

(** The [for] loop of [generateProxyingSessionId_], [n] rounds to go. *)
Fixpoint push_letters (n : nat) (letters : list string) : M (list string) :=
  match n with
  | O => ret letters
  | S n' =>
      c <- randomCharCode 97 122 ;;
      push_letters n' (letters ++ [String_fromCharCode c])
  end.

Definition generateProxyingSessionId_ : M string :=
  letters <- push_letters PROXYING_SESSION_ID_LENGTH [] ;;
  ret (String.concat "" letters).

(** The constructor: field initialisers, then [resetSharerCreated()]. *)
Definition new_RemoteConnection : RemoteConnection :=
  {| localGettingFromRemote_ := GettingState.NONE;
     localSharingWithRemote_ := SharingState.NONE;
     bytesSent_ := 0; bytesReceived_ := 0;
     socksToRtc_ := None; rtcToNet_ := None;
     isUpdatePending_ := false;
     onceSharerCreated := false;
     sharingReset_ := None;
     activeEndpoint := None; proxyingId_ := None |}.

Definition getCurrentState (c : RemoteConnection) : ConnectionState :=
  {| bytesSent := bytesSent_ c;
     bytesReceived := bytesReceived_ c;
     localGettingFromRemote := localGettingFromRemote_ c;
     localSharingWithRemote := localSharingWithRemote_ c;
     cs_activeEndpoint := activeEndpoint c |}.

Definition getProxyingId (c : RemoteConnection) : option string := proxyingId_ c.

Definition sendUpdate_ (u : Update) : M unit := emit (sendUpdate u).

Definition stateRefresh_ : M unit :=
  c <- this ;;
  sendUpdate_ (STATE (getCurrentState c)).

(** The handler built by [createSender_(type)]: the object the engine
    emits is sent on as [data] unchanged, whatever members it has. *)
Definition createSender_ (type : PeerMessageType.t) (signal : MessageData) : M unit :=
  sendUpdate_ (SIGNALLING_MESSAGE type signal).

(** Truthiness of a string that may be [undefined]. *)
Definition truthy (s : option string) : bool :=
  match s with
  | Some s => negb (String.eqb s "")
  | None => false
  end.

Definition handleMetadataSignal_ (message : MessageData) : M JSResult :=
  (if truthy (proxyingId message)
   then emit (log info "proxying session %1 initiated by remote peer") ;;
        set_this (set_proxyingId_ (proxyingId message))
   else ret tt) ;;
  ret (JS_promise Promise_resolve).

Definition forwardSignal_ (type : PeerMessageType.t) (signal : MessageData) : M JSResult :=
  c <- this ;;
  match type, rtcToNet_ c, socksToRtc_ c with
  | PeerMessageType.SIGNAL_FROM_CLIENT_PEER, Some e, _ =>
      emit (RtcToNet_handleSignalFromPeer e signal) ;;
      ret JS_undefined
  | PeerMessageType.SIGNAL_FROM_SERVER_PEER, _, Some e =>
      emit (SocksToRtc_handleSignalFromPeer e signal) ;;
      ret JS_undefined
  | _, _, _ =>
      emit (log warn "Invalid signal: ") ;;
      ret JS_undefined
  end.

Definition handleSignal (message : PeerMessage) : M JSResult :=
  match signals (data message) with
  | Some _ => forwardSignal_ (type message) (data message)
  | None => handleMetadataSignal_ (data message)
  end.

Definition resetSharerCreated : M unit := set_this (set_onceSharerCreated false).

Definition fulfillRtcToNetCreated_ : M unit := set_this (set_onceSharerCreated true).

Definition stopShare : M JSResult :=
  c <- this ;;
  if SharingState.eqb (localSharingWithRemote_ c) SharingState.NONE
  then
    emit (log warn "Cannot stop sharing when neither sharing nor trying to share.") ;;
    ret (JS_promise Promise_resolve)
  else
    set_this (set_localSharingWithRemote SharingState.NONE) ;;
    stateRefresh_ ;;
    rtcToNet_stop (rtcToNet_ c) ;;
    c' <- this ;;
    ret (match sharingReset_ c' with
         | Some p => JS_promise p
         | None => JS_null
         end).

(** The reaction registered on [rtcToNet_.onceStopped]. *)
Definition rtcToNet_onceStopped_then : M unit :=
  set_this (set_localSharingWithRemote SharingState.NONE) ;;
  sendUpdate_ STOP_GIVING ;;
  set_this (set_rtcToNet_ None) ;;
  set_this (set_bytesSent_ 0) ;;
  set_this (set_bytesReceived_ 0) ;;
  stateRefresh_.

(** The reactions registered on [rtcToNet_.onceReady]. *)
Definition rtcToNet_onceReady_then : M unit :=
  set_this (set_localSharingWithRemote SharingState.SHARING_ACCESS) ;;
  sendUpdate_ START_GIVING ;;
  stateRefresh_.

Definition rtcToNet_onceReady_catch (e : Error) : M unit :=
  _ <- stopShare ;;
  ret tt.

Definition startShare (remoteVersion : Z) : M JSResult :=
  c <- this ;;
  match rtcToNet_ c with
  | Some _ =>
      emit (log error "rtcToNet_ already exists") ;;
      throw (JSError "rtcToNet_ already exists")
  | None =>
      pc <- (if remoteVersion <? 2
             then emit (log debug "peer is running client version 1, using old peerconnection") ;;
                  ret (PeerConnectionClass "rtctonet")
             else emit (log debug "peer is running client version >1, using bridge") ;;
                  ret (bridge_best "rtctonet")) ;;
      e <- new_RtcToNet ;;
      set_this (set_rtcToNet_ (Some e)) ;;
      emit (RtcToNet_start e pc) ;;
      set_this (set_sharingReset_ (Some (sharingReset e))) ;;
      set_this (set_localSharingWithRemote SharingState.TRYING_TO_SHARE_ACCESS) ;;
      stateRefresh_ ;;
      fulfillRtcToNetCreated_ ;;
      ret (JS_promise (RtcToNet_onceReady e))
  end.

(** The reaction registered on [socksToRtc_['onceStopping_']]. *)
Definition socksToRtc_onceStopping_then : M unit :=
  c <- this ;;
  let isError :=
    GettingState.eqb GettingState.GETTING_ACCESS (localGettingFromRemote_ c) in
  sendUpdate_ (STOP_GETTING isError) ;;
  set_this (set_localGettingFromRemote GettingState.NONE) ;;
  set_this (set_bytesSent_ 0) ;;
  set_this (set_bytesReceived_ 0) ;;
  stateRefresh_ ;;
  set_this (set_socksToRtc_ None) ;;
  set_this (set_activeEndpoint None).

(** The reactions chained on [socksToRtc_.start(tcpServer, pc)]; each
    returns how the promise [start] that [startGet] returns is settled. *)
Definition socksToRtc_start_then (endpoint : Endpoint) : M Settlement :=
  emit (log info "SOCKS proxy listening on %1") ;;
  set_this (set_localGettingFromRemote GettingState.GETTING_ACCESS) ;;
  emit (metrics_increment "success") ;;
  stateRefresh_ ;;
  set_this (set_activeEndpoint (Some endpoint)) ;;
  ret (fulfilled_with endpoint).

Definition socksToRtc_start_catch (e : Error) : M Settlement :=
  set_this (set_localGettingFromRemote GettingState.NONE) ;;
  stateRefresh_ ;;
  ret (rejected (JSError "Could not start proxy")).

Definition startGet (remoteVersion : Z) : M JSResult :=
  c <- this ;;
  if negb (GettingState.eqb (localGettingFromRemote_ c) GettingState.NONE)
  then
    emit (log error "Currently have a connection open") ;;
    throw (JSError "Currently have a connection open")
  else
  match socksToRtc_ c with
  | Some _ =>
      emit (log error "socksToRtc_ already exists") ;;
      throw (JSError "socksToRtc_ already exists")
  | None =>
      id <- generateProxyingSessionId_ ;;
      set_this (set_proxyingId_ (Some id)) ;;
      emit (log info "initiating proxying session %1") ;;
      sendUpdate_ (SIGNALLING_MESSAGE PeerMessageType.SIGNAL_FROM_CLIENT_PEER
                     {| signals := None; proxyingId := Some id |}) ;;
      e <- new_SocksToRtc ;;
      set_this (set_socksToRtc_ (Some e)) ;;
      set_this (set_localGettingFromRemote GettingState.TRYING_TO_GET_ACCESS) ;;
      stateRefresh_ ;;
      let localVersion := effectiveMessageVersion env in
      let commonVersion := Z.min localVersion remoteVersion in
      emit (log info "lowest shared client version is %1 (me: %2, peer: %3)") ;;
      pc <- (let V := MESSAGE_VERSIONS env in
             if commonVersion =? PRE_BRIDGE V then
               emit (log debug "using old peerconnection") ;;
               ret (PeerConnectionClass "sockstortc")
             else if commonVersion =? BRIDGE V then
               emit (log debug "using bridge without obfuscation") ;;
               ret (bridge_preObfuscation "sockstortc")
             else if commonVersion =? CAESAR V then
               emit (log debug "using bridge with caesar obfuscation") ;;
               ret (bridge_basicObfuscation "sockstortc")
             else if (commonVersion =? HOLOGRAPHIC_ICE V)
                     || (commonVersion =? ENCRYPTED_SIGNALS V) then
               emit (log debug "using holographic ICE with caesar obfuscation") ;;
               ret (bridge_holographicIceOnly "sockstortc" None)
             else
               emit (log debug "using holographic ICE with RC4 obfuscation") ;;
               key <- rc4_randomConfig_call ;;
               ret (bridge_holographicIceOnly "sockstortc"
                      (Some {| name := "rc4"; config := key |}))) ;;
      emit (metrics_increment "attempt") ;;
      emit (SocksToRtc_start e pc) ;;
      ret (JS_promise (SocksToRtc_started e))
  end.

Definition stopGet : M JSResult :=
  c <- this ;;
  if GettingState.eqb (localGettingFromRemote_ c) GettingState.NONE
  then
    emit (log warn "Cannot stop proxying when neither proxying nor trying to proxy.") ;;
    ret JS_undefined
  else
    emit (metrics_increment "stop") ;;
    set_this (set_localGettingFromRemote GettingState.NONE) ;;
    stateRefresh_ ;;
    socksToRtc_stop (socksToRtc_ c).

(** The function handed to [setTimeout] by [delayedUpdate_]. *)
Definition delayedUpdate_timeout : M unit :=
  stateRefresh_ ;;
  set_this (set_isUpdatePending_ false).

Definition delayedUpdate_ : M unit :=
  c <- this ;;
  if negb (isUpdatePending_ c)
  then
    emit (setTimeout 1000) ;;
    set_world (with_pendingTimeouts S) ;;
    set_this (set_isUpdatePending_ true)
  else ret tt.

(** The counters and the counts are JavaScript numbers.  They are
    integers here, and [+] is exact: that is the sum the code computes as
    long as the counts are integers and no sum passes 2^53; beyond that
    the code rounds and this model does not. *)
Definition handleBytesReceived_ (bytes : Z) : M unit :=
  c <- this ;;
  set_this (set_bytesReceived_ (bytesReceived_ c + bytes)) ;;
  delayedUpdate_.

Definition handleBytesSent_ (bytes : Z) : M unit :=
  c <- this ;;
  set_this (set_bytesSent_ (bytesSent_ c + bytes)) ;;
  delayedUpdate_.

Definition handleStatusUpdate_ (status : Status) : M unit :=
  match status with
  | REPROXY_ERROR => sendUpdate_ UPDATE_REPROXY_ERROR
  | REPROXY_WORKING => sendUpdate_ UPDATE_REPROXY_WORKING
  | UNRECOGNIZED _ =>
      emit (log warn "Received unrecognized status update from RtcToNet: %1")
  end.

(** ** Events: what the owner and the environment make the session run *)

Inductive Event :=
(* the owner calls a public method *)
| call_startShare (remoteVersion : Z)
| call_stopShare
| call_startGet (remoteVersion : Z)
| call_stopGet
| call_handleSignal (message : PeerMessage)
| call_resetSharerCreated
(* the sharing engine: onceReady fulfils or rejects, onceStopped fulfils,
   and its queues deliver to the handlers set by startShare *)
| rtcToNet_ready (e : EngineId)
| rtcToNet_failed (e : EngineId) (cause : Error)
| rtcToNet_stopped (e : EngineId)
| rtcToNet_signalForPeer (e : EngineId) (signal : MessageData)
| rtcToNet_bytesReceivedFromPeer (e : EngineId) (bytes : Z)
| rtcToNet_bytesSentToPeer (e : EngineId) (bytes : Z)
| rtcToNet_statusUpdate (e : EngineId) (status : Status)
(* the getting engine: start(..) fulfils or rejects, onceStopping_ fulfils,
   and its queues deliver to the handlers set by startGet *)
| socksToRtc_ready (e : EngineId) (endpoint : Endpoint)
| socksToRtc_failed (e : EngineId) (cause : Error)
| socksToRtc_stopping (e : EngineId)
| socksToRtc_signalForPeer (e : EngineId) (signal : MessageData)
| socksToRtc_bytesReceivedFromPeer (e : EngineId) (bytes : Z)
| socksToRtc_bytesSentToPeer (e : EngineId) (bytes : Z)
(* the timer set by delayedUpdate_ fires *)
| timeout.

(** The method or callback an event runs.  A value returned to the owner
    is dropped here; the settlement of a promise made by the session is
    kept as an effect. *)
Definition react (ev : Event) : M unit :=
  match ev with
  | call_startShare v => _ <- startShare v ;; ret tt
  | call_stopShare => _ <- stopShare ;; ret tt
  | call_startGet v => _ <- startGet v ;; ret tt
  | call_stopGet => _ <- stopGet ;; ret tt
  | call_handleSignal m => _ <- handleSignal m ;; ret tt
  | call_resetSharerCreated => resetSharerCreated
  | rtcToNet_ready e => rtcToNet_onceReady_then
  | rtcToNet_failed e cause => rtcToNet_onceReady_catch cause
  | rtcToNet_stopped e =>
      rtcToNet_onceStopped_then ;;
      emit (settle (sharingReset e) fulfilled_void)
  | rtcToNet_signalForPeer e s =>
      createSender_ PeerMessageType.SIGNAL_FROM_SERVER_PEER s
  | rtcToNet_bytesReceivedFromPeer e n => handleBytesReceived_ n
  | rtcToNet_bytesSentToPeer e n => handleBytesSent_ n
  | rtcToNet_statusUpdate e st => handleStatusUpdate_ st
  | socksToRtc_ready e endpoint =>
      s <- socksToRtc_start_then endpoint ;;
      emit (settle (SocksToRtc_started e) s)
  | socksToRtc_failed e cause =>
      s <- socksToRtc_start_catch cause ;;
      emit (settle (SocksToRtc_started e) s)
  | socksToRtc_stopping e => socksToRtc_onceStopping_then
  | socksToRtc_signalForPeer e s =>
      createSender_ PeerMessageType.SIGNAL_FROM_CLIENT_PEER s
  | socksToRtc_bytesReceivedFromPeer e n => handleBytesReceived_ n
  | socksToRtc_bytesSentToPeer e n => handleBytesSent_ n
  | timeout => delayedUpdate_timeout
  end.

(** What the environment notes when it delivers an event: a promise is now
    settled, a timer is gone. *)
Definition deliver (ev : Event) (w : World) : World :=
  match ev with
  | rtcToNet_ready e | rtcToNet_failed e _ => with_rtcToNets (alter settle_ready e) w
  | rtcToNet_stopped e => with_rtcToNets (alter fire_stop e) w
  | socksToRtc_ready e _ | socksToRtc_failed e _ =>
      with_socksToRtcs (alter settle_ready e) w
  | socksToRtc_stopping e => with_socksToRtcs (alter fire_stop e) w
  | timeout => with_pendingTimeouts Nat.pred w
  | _ => w
  end.

(** One event: the callback runs to completion; when a method throws, the
    assignments made before the throw stay. *)
Definition step (ev : Event) (w : World) : World * list Effect :=
  match react ev (deliver ev w) with
  | (_, w', fx) => (w', fx)
  end.

Fixpoint exec (evs : list Event) (w : World) : World * list Effect :=
  match evs with
  | [] => (w, [])
  | ev :: evs' =>
      let (w1, fx1) := step ev w in
      let (w2, fx2) := exec evs' w1 in
      (w2, fx1 ++ fx2)
  end.

(** The states a run goes through, the first one included. *)
Fixpoint visited (evs : list Event) (w : World) : list World :=
  match evs with
  | [] => [w]
  | ev :: evs' => w :: visited evs' (fst (step ev w))
  end.

(** ** What the environment can do *)

Definition engine_can (p : EngineStatus -> bool) (l : list EngineStatus)
    (e : EngineId) : bool :=
  match l !! e with
  | Some st => p st
  | None => false
  end.

(** A callback runs only for an engine that exists (the handlers are set
    when the engine is made); a promise settles once; a timer fires only
    when one is set. *)
Definition enabled (w : World) (ev : Event) : bool :=
  match ev with
  | rtcToNet_ready e | rtcToNet_failed e _ =>
      engine_can (fun st => negb (readySettled st)) (rtcToNets w) e
  | rtcToNet_stopped e =>
      engine_can (fun st => negb (stopFired st)) (rtcToNets w) e
  | rtcToNet_signalForPeer e _ | rtcToNet_bytesReceivedFromPeer e _
  | rtcToNet_bytesSentToPeer e _ | rtcToNet_statusUpdate e _ =>
      engine_can (fun _ => true) (rtcToNets w) e
  | socksToRtc_ready e _ | socksToRtc_failed e _ =>
      engine_can (fun st => negb (readySettled st)) (socksToRtcs w) e
  | socksToRtc_stopping e =>
      engine_can (fun st => negb (stopFired st)) (socksToRtcs w) e
  | socksToRtc_signalForPeer e _ | socksToRtc_bytesReceivedFromPeer e _
  | socksToRtc_bytesSentToPeer e _ =>
      engine_can (fun _ => true) (socksToRtcs w) e
  | timeout => negb (Nat.eqb (pendingTimeouts w) 0)
  | _ => true
  end.

(** A sharing engine becomes ready only while it was neither asked to stop
    nor has stopped. *)
Definition sharing_ready_before_stop (w : World) (ev : Event) : bool :=
  match ev with
  | rtcToNet_ready e =>
      engine_can (fun st => negb (stopRequested st) && negb (stopFired st))
                 (rtcToNets w) e
  | _ => true
  end.

(** A getting engine reports a successful start only before it signals
    that it is stopping. *)
Definition getting_ready_before_stopping (w : World) (ev : Event) : bool :=
  match ev with
  | socksToRtc_ready e _ =>
      engine_can (fun st => negb (stopFired st)) (socksToRtcs w) e
  | _ => true
  end.

(** The owner keeps the precondition of [startShare]: no sharing engine
    exists when it calls. *)
Definition startShare_precondition (w : World) (ev : Event) : bool :=
  match ev with
  | call_startShare _ =>
      match rtcToNet_ (conn w) with Some _ => false | None => true end
  | _ => true
  end.

(** [p] holds of every event of the run, in the state it is delivered in. *)
Fixpoint throughout (p : World -> Event -> bool) (evs : list Event) (w : World) : bool :=
  match evs with
  | [] => true
  | ev :: evs' => p w ev && throughout p evs' (fst (step ev w))
  end.

End RemoteConnection.

(** The world right after [new RemoteConnection(..)]. *)
Definition init : World :=
  {| conn := new_RemoteConnection;
     rtcToNets := []; socksToRtcs := [];
     randomCalls := 0; rc4Calls := 0; pendingTimeouts := 0 |}.

(** ** Observations on runs and outputs *)

Definition sharing_of (w : World) : SharingState.t := localSharingWithRemote_ (conn w).

Definition getting_of (w : World) : GettingState.t := localGettingFromRemote_ (conn w).

(** The moves of [sharingState] along
    NONE -> TRYING_TO_SHARE_ACCESS -> SHARING_ACCESS -> NONE and
    NONE -> TRYING_TO_SHARE_ACCESS -> NONE; staying put is no move. *)
Definition sharing_edge (a b : SharingState.t) : bool :=
  match a, b with
  | SharingState.NONE, SharingState.NONE
  | SharingState.TRYING_TO_SHARE_ACCESS, SharingState.TRYING_TO_SHARE_ACCESS
  | SharingState.SHARING_ACCESS, SharingState.SHARING_ACCESS => true
  | SharingState.NONE, SharingState.TRYING_TO_SHARE_ACCESS
  | SharingState.TRYING_TO_SHARE_ACCESS, SharingState.SHARING_ACCESS
  | SharingState.SHARING_ACCESS, SharingState.NONE
  | SharingState.TRYING_TO_SHARE_ACCESS, SharingState.NONE => true
  | _, _ => false
  end.

(** Every two neighbours of [l] are joined by [edge]. *)
Fixpoint along {A} (edge : A -> A -> bool) (l : list A) : bool :=
  match l with
  | a :: (b :: _) as l' => edge a b && along edge l'
  | _ => true
  end.

Definition sharing_history (env : Env) (evs : list Event) (w : World) : list SharingState.t :=
  map sharing_of (visited env evs w).

(** The STATE updates, the timers set and the peer connections given to a
    getting engine, among some effects. *)
Definition STATE_updates (fx : list Effect) : list ConnectionState :=
  omap (fun x => match x with sendUpdate (STATE s) => Some s | _ => None end) fx.

Definition timeouts_set (fx : list Effect) : list Z :=
  omap (fun x => match x with setTimeout ms => Some ms | _ => None end) fx.

Definition getting_started_with (fx : list Effect) : list (EngineId * PeerConnection) :=
  omap (fun x => match x with SocksToRtc_start e pc => Some (e, pc) | _ => None end) fx.

(** A character code of a lowercase letter, [a] (97) to [z] (122). *)
Definition lowercase_code (c : ascii) : Prop :=
  97 <= Z.of_N (N_of_ascii c) <= 122.

Definition lowercase (s : string) : Prop :=
  Forall lowercase_code (list_ascii_of_string s).

(** The session id as a function of the random numbers drawn: for each of
    the 16 draws [r], the letter with code [97 + floor (r * 25)]. *)
Definition letters_from (env : Env) (first : nat) (n : nat) : list string :=
  map (fun k => String_fromCharCode (97 + Qfloor (Math_random env k * inject_Z (122 - 97))))
      (seq first n).

(** A byte-count event, from either engine and in either direction. *)
Definition is_byte_count (ev : Event) : bool :=
  match ev with
  | rtcToNet_bytesReceivedFromPeer _ _ | rtcToNet_bytesSentToPeer _ _
  | socksToRtc_bytesReceivedFromPeer _ _ | socksToRtc_bytesSentToPeer _ _ => true
  | _ => false
  end.

(** An environment to run examples in: tiers 1 to 5, local version 6. *)
Definition example_env : Env :=
  {| MESSAGE_VERSIONS :=
       {| PRE_BRIDGE := 1; BRIDGE := 2; CAESAR := 3;
          HOLOGRAPHIC_ICE := 4; ENCRYPTED_SIGNALS := 5 |};
     effectiveMessageVersion := 6;
     Math_random := fun k => Qmake (Z.of_nat (Nat.modulo (7 * k) 10)) 10;
     rc4_randomConfig := fun k => String (ascii_of_nat (65 + k)) EmptyString |}.

Definition example_endpoint : Endpoint := {| address := "127.0.0.1"; port := 9999 |}.

(** ** Each role as a machine of its own *)

(** What the sharing role consists of: its state, the engine reference
    and the sharing engines. *)
Record RoleView (S : Type) := {
  role_state : S;
  role_engine : option EngineId;
  role_engines : list EngineStatus
}.
Arguments role_state {S} _.
Arguments role_engine {S} _.
Arguments role_engines {S} _.

Definition sharing_view (w : World) : RoleView SharingState.t :=
  {| role_state := sharing_of w;
     role_engine := rtcToNet_ (conn w);
     role_engines := rtcToNets w |}.

Definition getting_view (w : World) : RoleView GettingState.t :=
  {| role_state := getting_of w;
     role_engine := socksToRtc_ (conn w);
     role_engines := socksToRtcs w |}.

(** [stopShare] and [stopGet], as far as the role goes: nothing without a
    role; else the state is NONE and the engine referred to is asked to
    stop. *)
Definition stop_role {S} (none : S) (is_none : S -> bool) (v : RoleView S) : RoleView S :=
  if is_none (role_state v) then v
  else {| role_state := none;
          role_engine := role_engine v;
          role_engines := match role_engine v with
                          | Some e => alter request_stop e (role_engines v)
                          | None => role_engines v
                          end |}.

Definition with_engines {S} (f : list EngineStatus -> list EngineStatus) (v : RoleView S) :=
  {| role_state := role_state v; role_engine := role_engine v;
     role_engines := f (role_engines v) |}.

(** The sharing role under each event. *)
Definition sharing_step (ev : Event) (v : RoleView SharingState.t) : RoleView SharingState.t :=
  match ev with
  | call_startShare _ =>
      match role_engine v with
      | Some _ => v
      | None =>
          {| role_state := SharingState.TRYING_TO_SHARE_ACCESS;
             role_engine := Some (length (role_engines v));
             role_engines := role_engines v ++ [fresh_engine] |}
      end
  | call_stopShare =>
      stop_role SharingState.NONE (fun s => SharingState.eqb s SharingState.NONE) v
  | rtcToNet_ready e =>
      {| role_state := SharingState.SHARING_ACCESS;
         role_engine := role_engine v;
         role_engines := alter settle_ready e (role_engines v) |}
  | rtcToNet_failed e _ =>
      stop_role SharingState.NONE (fun s => SharingState.eqb s SharingState.NONE)
                (with_engines (alter settle_ready e) v)
  | rtcToNet_stopped e =>
      {| role_state := SharingState.NONE;
         role_engine := None;
         role_engines := alter fire_stop e (role_engines v) |}
  | _ => v
  end.

(** The getting role under each event. *)
Definition getting_step (ev : Event) (v : RoleView GettingState.t) : RoleView GettingState.t :=
  match ev with
  | call_startGet _ =>
      match role_state v, role_engine v with
      | GettingState.NONE, None =>
          {| role_state := GettingState.TRYING_TO_GET_ACCESS;
             role_engine := Some (length (role_engines v));
             role_engines := role_engines v ++ [fresh_engine] |}
      | _, _ => v
      end
  | call_stopGet =>
      stop_role GettingState.NONE (fun s => GettingState.eqb s GettingState.NONE) v
  | socksToRtc_ready e _ =>
      {| role_state := GettingState.GETTING_ACCESS;
         role_engine := role_engine v;
         role_engines := alter settle_ready e (role_engines v) |}
  | socksToRtc_failed e _ =>
      {| role_state := GettingState.NONE;
         role_engine := role_engine v;
         role_engines := alter settle_ready e (role_engines v) |}
  | socksToRtc_stopping e =>
      {| role_state := GettingState.NONE;
         role_engine := None;
         role_engines := alter fire_stop e (role_engines v) |}
  | _ => v
  end.

(** ** [startGet], when it does not throw, in closed form *)

(** The [switch] on [commonVersion]: the peer connection built, given the
    key [rc4.randomConfig] would return; whether that call is made; and
    the line logged. *)
Definition switch_commonVersion (V : MESSAGE_VERSIONS_t) (commonVersion : Z)
    (key : string) : PeerConnection :=
  if commonVersion =? PRE_BRIDGE V then PeerConnectionClass "sockstortc"
  else if commonVersion =? BRIDGE V then bridge_preObfuscation "sockstortc"
  else if commonVersion =? CAESAR V then bridge_basicObfuscation "sockstortc"
  else if (commonVersion =? HOLOGRAPHIC_ICE V) || (commonVersion =? ENCRYPTED_SIGNALS V)
  then bridge_holographicIceOnly "sockstortc" None
  else bridge_holographicIceOnly "sockstortc" (Some {| name := "rc4"; config := key |}).

Definition switch_default (V : MESSAGE_VERSIONS_t) (commonVersion : Z) : bool :=
  negb ((commonVersion =? PRE_BRIDGE V) || (commonVersion =? BRIDGE V)
        || (commonVersion =? CAESAR V) || (commonVersion =? HOLOGRAPHIC_ICE V)
        || (commonVersion =? ENCRYPTED_SIGNALS V)).

Definition switch_log (V : MESSAGE_VERSIONS_t) (commonVersion : Z) : string :=
  if commonVersion =? PRE_BRIDGE V then "using old peerconnection"
  else if commonVersion =? BRIDGE V then "using bridge without obfuscation"
  else if commonVersion =? CAESAR V then "using bridge with caesar obfuscation"
  else if (commonVersion =? HOLOGRAPHIC_ICE V) || (commonVersion =? ENCRYPTED_SIGNALS V)
  then "using holographic ICE with caesar obfuscation"
  else "using holographic ICE with RC4 obfuscation".

Definition startGet_id (env : Env) (w : World) : string :=
  String.concat "" (letters_from env (randomCalls w) 16).

Definition startGet_conn (env : Env) (w : World) : RemoteConnection :=
  set_localGettingFromRemote GettingState.TRYING_TO_GET_ACCESS
    (set_socksToRtc_ (Some (length (socksToRtcs w)))
       (set_proxyingId_ (Some (startGet_id env w)) (conn w))).

Definition startGet_world (env : Env) (remoteVersion : Z) (w : World) : World :=
  {| conn := startGet_conn env w;
     rtcToNets := rtcToNets w;
     socksToRtcs := socksToRtcs w ++ [fresh_engine];
     randomCalls := 16 + randomCalls w;
     rc4Calls :=
       if switch_default (MESSAGE_VERSIONS env)
            (Z.min (effectiveMessageVersion env) remoteVersion)
       then S (rc4Calls w) else rc4Calls w;
     pendingTimeouts := pendingTimeouts w |}.

Definition startGet_effects (env : Env) (remoteVersion : Z) (w : World) : list Effect :=
  let commonVersion := Z.min (effectiveMessageVersion env) remoteVersion in
  [ log info "initiating proxying session %1";
    sendUpdate (SIGNALLING_MESSAGE PeerMessageType.SIGNAL_FROM_CLIENT_PEER
                  {| signals := None; proxyingId := Some (startGet_id env w) |});
    sendUpdate (STATE (getCurrentState (startGet_conn env w)));
    log info "lowest shared client version is %1 (me: %2, peer: %3)";
    log debug (switch_log (MESSAGE_VERSIONS env) commonVersion);
    metrics_increment "attempt";
    SocksToRtc_start (length (socksToRtcs w))
      (switch_commonVersion (MESSAGE_VERSIONS env) commonVersion
         (rc4_randomConfig env (rc4Calls w))) ].

(** ** Invariants of the roles *)

(** Every engine but the one referred to has fired its stopped (or
    stopping) promise. *)
Definition others_stopped (ref : option EngineId) (l : list EngineStatus) : Prop :=
  forall e st, l !! e = Some st -> ref <> Some e -> stopFired st = true.

(** Sharing: without an engine reference the state is NONE, and an engine
    referred to that was neither asked to stop nor has stopped has a
    state other than NONE. *)
Definition sharing_inv (v : RoleView SharingState.t) : Prop :=
  others_stopped (role_engine v) (role_engines v)
  /\ (role_engine v = None -> role_state v = SharingState.NONE)
  /\ (forall e st,
        role_engine v = Some e -> role_engines v !! e = Some st ->
        stopRequested st = false -> stopFired st = false ->
        role_state v <> SharingState.NONE).

(** Getting: without an engine reference the state is NONE. *)
Definition getting_inv (v : RoleView GettingState.t) : Prop :=
  others_stopped (role_engine v) (role_engines v)
  /\ (role_engine v = None -> role_state v = GettingState.NONE).

(** A one-letter string whose letter has a code from 97 to [hi]. *)
Definition letter_upto (hi : Z) (s : string) : Prop :=
  exists c, s = String c EmptyString /\ 97 <= Z.of_N (N_of_ascii c) <= hi.

(** ** Three properties in the strength the specification words them *)

(** The sharing state moves along its two paths in every run in which the
    owner keeps the precondition of [startShare], whatever the engines
    signal and whenever they do. *)
Definition sharing_paths_whatever_engines_signal (env : Env) : Prop :=
  forall evs,
    throughout env enabled evs init = true ->
    throughout env startShare_precondition evs init = true ->
    along sharing_edge (sharing_history env evs init) = true.

(** Whenever [gettingState] is NONE the getting-engine reference is null. *)
Definition getting_none_means_no_reference (env : Env) : Prop :=
  forall evs,
    throughout env enabled evs init = true ->
    getting_of (fst (exec env evs init)) = GettingState.NONE ->
    socksToRtc_ (conn (fst (exec env evs init))) = None.

(** After any metadata envelope, [getProxyingId] is the id it carried. *)
Definition metadata_id_always_recorded : Prop :=
  forall w ty id,
    getProxyingId
      (conn (snd (fst (handleSignal
                         {| type := ty;
                            data := {| signals := None; proxyingId := Some id |} |}
                         w))))
    = Some id.

(** ** More observations *)

(** The peer connections given to a sharing engine, the engines asked to
    stop, the updates sent and the promises settled, among some effects. *)
Definition sharing_started_with (fx : list Effect) : list (EngineId * PeerConnection) :=
  omap (fun x => match x with RtcToNet_start e pc => Some (e, pc) | _ => None end) fx.

Definition updates_sent (fx : list Effect) : list Update :=
  omap (fun x => match x with sendUpdate u => Some u | _ => None end) fx.

Definition settlements (fx : list Effect) : list (Promise * Settlement) :=
  omap (fun x => match x with settle p s => Some (p, s) | _ => None end) fx.

(** The signals handed to an engine: to a sharing engine ([inl]) or to a
    getting engine ([inr]). *)
Definition handed_over (fx : list Effect) : list ((EngineId + EngineId) * MessageData) :=
  omap (fun x => match x with
                 | RtcToNet_handleSignalFromPeer e d => Some (inl e, d)
                 | SocksToRtc_handleSignalFromPeer e d => Some (inr e, d)
                 | _ => None
                 end) fx.


(** The bytes a run of events reports as sent and as received. *)
Definition bytes_sent_of (ev : Event) : Z :=
  match ev with
  | rtcToNet_bytesSentToPeer _ n | socksToRtc_bytesSentToPeer _ n => n
  | _ => 0
  end.

Definition bytes_received_of (ev : Event) : Z :=
  match ev with
  | rtcToNet_bytesReceivedFromPeer _ n | socksToRtc_bytesReceivedFromPeer _ n => n
  | _ => 0
  end.

Definition total (f : Event -> Z) (evs : list Event) : Z :=
  fold_right (fun ev acc => f ev + acc) 0 evs.

(** The integers a JavaScript number counts exactly, from 0. *)
Definition safe_count (n : Z) : Prop := 0 <= n <= 2 ^ 53.

Definition nonnegative_bytes (ev : Event) : bool :=
  (0 <=? bytes_sent_of ev) && (0 <=? bytes_received_of ev).

(** An engine is live when it has not fired its stopped (or stopping)
    promise; the reference names the one live engine, if any. *)
Definition one_live_engine (ref : option EngineId) (l : list EngineStatus) : Prop :=
  others_stopped ref l
  /\ (forall e, ref = Some e -> exists st, l !! e = Some st /\ stopFired st = false).

(** The flag [isUpdatePending_] is set exactly while one timer is set. *)
Definition timer_matches_flag (w : World) : Prop :=
  pendingTimeouts w = if isUpdatePending_ (conn w) then 1%nat else 0%nat.

(** The getting role with the endpoint: without an engine reference there
    is no endpoint, and none before the engine referred to has settled
    its start. *)
Definition endpoint_inv (w : World) : Prop :=
  getting_inv (getting_view w)
  /\ (socksToRtc_ (conn w) = None -> activeEndpoint (conn w) = None)
  /\ (forall e st,
        socksToRtc_ (conn w) = Some e -> socksToRtcs w !! e = Some st ->
        readySettled st = false -> activeEndpoint (conn w) = None).

(** The stop cleanups, which reset the counters. *)
Definition is_cleanup (ev : Event) : bool :=
  match ev with
  | rtcToNet_stopped _ | socksToRtc_stopping _ => true
  | _ => false
  end.

(** Whether the method or callback an event runs ends in a throw. *)
Definition throws (env : Env) (ev : Event) (w : World) : bool :=
  match react env ev (deliver ev w) with
  | (Thrown _, _, _) => true
  | (Returned _, _, _) => false
  end.

(** The two calls the owner must not make: [startShare] while a sharing
    engine exists, [startGet] while getting or while a getting engine
    exists. *)
Definition misuse (ev : Event) (w : World) : bool :=
  match ev with
  | call_startShare _ =>
      match rtcToNet_ (conn w) with Some _ => true | None => false end
  | call_startGet _ =>
      negb (GettingState.eqb (getting_of w) GettingState.NONE)
      || match socksToRtc_ (conn w) with Some _ => true | None => false end
  | _ => false
  end.

(** A getting engine reports a successful start only while it was neither
    asked to stop nor has signalled that it is stopping. *)
Definition getting_ready_before_stop (w : World) (ev : Event) : bool :=
  match ev with
  | socksToRtc_ready e _ =>
      engine_can (fun st => negb (stopRequested st) && negb (stopFired st))
                 (socksToRtcs w) e
  | _ => true
  end.


(** Getting, with what [stop()] leaves behind: the state is NONE while
    the engine referred to has been asked to stop. *)
Definition stop_asked_inv (v : RoleView GettingState.t) : Prop :=
  getting_inv v
  /\ one_live_engine (role_engine v) (role_engines v)
  /\ (forall e st,
        role_engine v = Some e -> role_engines v !! e = Some st ->
        stopRequested st = true -> role_state v = GettingState.NONE).


(** * Lemmas on the embedding *)

(** ** Running a method by hand *)

Lemma bind_this {A} (k : RemoteConnection -> M A) w :
  bind this k w = k (conn w) w.
Proof. unfold bind, this. destruct (k (conn w) w) as [[r w2] fx]. reflexivity. Qed.

(** [js_run] evaluates the monad and the field assignments and leaves the
    arithmetic alone; [open_world] splits a world into its fields, so that
    every projection in a method computes. *)
Ltac js_run :=
  cbv beta iota zeta delta
    [bind ret emit this world set_world set_this throw with_conn
     with_rtcToNets with_socksToRtcs with_randomCalls with_rc4Calls
     with_pendingTimeouts
     sendUpdate_ stateRefresh_ getCurrentState createSender_
     new_RtcToNet new_SocksToRtc rtcToNet_stop socksToRtc_stop
     rc4_randomConfig_call Math_random_call
     resetSharerCreated fulfillRtcToNetCreated_
     set_localGettingFromRemote set_localSharingWithRemote set_bytesSent_
     set_bytesReceived_ set_socksToRtc_ set_rtcToNet_ set_isUpdatePending_
     set_onceSharerCreated set_sharingReset_ set_activeEndpoint set_proxyingId_
     conn rtcToNets socksToRtcs randomCalls rc4Calls pendingTimeouts
     localGettingFromRemote_ localSharingWithRemote_ bytesSent_ bytesReceived_
     socksToRtc_ rtcToNet_ isUpdatePending_ onceSharerCreated sharingReset_
     activeEndpoint proxyingId_ getting_of sharing_of
     fst snd negb GettingState.eqb SharingState.eqb].

Ltac open_world w :=
  destruct w as [[?g ?s ?bs ?br ?so ?rn ?up ?osc ?sr ?ae ?pid] ?rns ?sos ?rc ?r4 ?pt];
  cbn [conn rtcToNets socksToRtcs randomCalls rc4Calls pendingTimeouts
     localGettingFromRemote_ localSharingWithRemote_ bytesSent_ bytesReceived_
     socksToRtc_ rtcToNet_ isUpdatePending_ onceSharerCreated sharingReset_
     activeEndpoint proxyingId_ getting_of sharing_of] in *.

(** The generator draws 16 numbers, changes nothing else and is silent. *)
Lemma generateProxyingSessionId_spec env w :
  generateProxyingSessionId_ env w
  = (Returned (String.concat "" (letters_from env (randomCalls w) 16)),
     with_randomCalls (Nat.add 16) w, []).
Proof. reflexivity. Qed.

(** [startGet] has two outcomes: it throws at one of its two checks, or
    it returns the promise of the engine it made. *)
Lemma startGet_throws env remoteVersion w :
  getting_of w <> GettingState.NONE \/ socksToRtc_ (conn w) <> None ->
  exists message,
    startGet env remoteVersion w = (Thrown (JSError message), w, [log error message]).
Proof.
  unfold getting_of, startGet. intros H. rewrite bind_this.
  destruct (localGettingFromRemote_ (conn w)) eqn:Hg.
  - destruct (socksToRtc_ (conn w)) eqn:Hs.
    + eexists; reflexivity.
    + destruct H; congruence.
  - eexists; reflexivity.
  - eexists; reflexivity.
Qed.

Lemma startGet_returns env remoteVersion w :
  getting_of w = GettingState.NONE -> socksToRtc_ (conn w) = None ->
  startGet env remoteVersion w
  = (Returned (JS_promise (SocksToRtc_started (length (socksToRtcs w)))),
     startGet_world env remoteVersion w,
     startGet_effects env remoteVersion w).
Proof.
  intros Hg Hs. open_world w. subst. unfold startGet.
  rewrite bind_this. js_run.
  rewrite generateProxyingSessionId_spec.
  unfold startGet_world, startGet_effects, startGet_conn, startGet_id,
    switch_commonVersion, switch_default, switch_log.
  js_run.
  destruct (Z.min (effectiveMessageVersion env) remoteVersion =? PRE_BRIDGE (MESSAGE_VERSIONS env)); [reflexivity|].
  destruct (Z.min (effectiveMessageVersion env) remoteVersion =? BRIDGE (MESSAGE_VERSIONS env)); [reflexivity|].
  destruct (Z.min (effectiveMessageVersion env) remoteVersion =? CAESAR (MESSAGE_VERSIONS env)); [reflexivity|].
  destruct (Z.min (effectiveMessageVersion env) remoteVersion =? HOLOGRAPHIC_ICE (MESSAGE_VERSIONS env)); [reflexivity|].
  destruct (Z.min (effectiveMessageVersion env) remoteVersion =? ENCRYPTED_SIGNALS (MESSAGE_VERSIONS env)); reflexivity.
Qed.

(** ** The step, seen from each role *)

Lemma step_world env ev w :
  fst (step env ev w) = snd (fst (react env ev (deliver ev w))).
Proof. unfold step. destruct (react env ev (deliver ev w)) as [[r w'] fx]. reflexivity. Qed.

Lemma bind_drop_world {A} (m : M A) w :
  snd (fst (bind m (fun _ => ret tt) w)) = snd (fst (m w)).
Proof. unfold bind. destruct (m w) as [[[a | e] w1] fx]; reflexivity. Qed.

Lemma startGet_world_after env remoteVersion w :
  snd (fst (startGet env remoteVersion w))
  = match getting_of w, socksToRtc_ (conn w) with
    | GettingState.NONE, None => startGet_world env remoteVersion w
    | _, _ => w
    end.
Proof.
  destruct (getting_of w) eqn:Hg.
  - destruct (socksToRtc_ (conn w)) eqn:Hs.
    + destruct (startGet_throws env remoteVersion w) as [m ->]; [right; congruence | reflexivity].
    + rewrite startGet_returns by assumption. reflexivity.
  - destruct (startGet_throws env remoteVersion w) as [m ->]; [left; congruence | reflexivity].
  - destruct (startGet_throws env remoteVersion w) as [m ->]; [left; congruence | reflexivity].
Qed.

(** An event does to a role exactly what the role's machine says. *)
Ltac open_step :=
  unfold step, react, deliver, sharing_view, getting_view, sharing_step,
    getting_step, stop_role, with_engines.

Ltac view_of_step :=
  match goal with
  | |- context [step _ ?ev ?w] =>
      destruct ev;
      try (rewrite step_world; cbn [react deliver]; rewrite bind_drop_world);
      try rewrite startGet_world_after;
      open_world w; open_step;
      unfold startShare, stopShare, stopGet, handleSignal, forwardSignal_,
        handleMetadataSignal_, rtcToNet_onceReady_catch, handleBytesReceived_,
        handleBytesSent_, delayedUpdate_;
      try reflexivity
  end.

Lemma step_sharing_view env ev w :
  sharing_view (fst (step env ev w)) = sharing_step ev (sharing_view w).
Proof.
  view_of_step.
  - js_run. destruct rn; [reflexivity |]. destruct (remoteVersion <? 2); reflexivity.
  - js_run. destruct s; try reflexivity; destruct rn; reflexivity.
  - destruct g; try reflexivity. destruct so; reflexivity.
  - js_run. destruct g; try reflexivity; destruct so; reflexivity.
  - destruct message as [ty [sg pi]]. cbn [data type signals proxyingId]. js_run.
    destruct sg; [destruct ty, rn, so | destruct (truthy pi)]; reflexivity.
  - js_run. destruct s; try reflexivity; destruct rn; reflexivity.
  - js_run. destruct up; reflexivity.
  - js_run. destruct up; reflexivity.
  - destruct status; reflexivity.
  - js_run. destruct up; reflexivity.
  - js_run. destruct up; reflexivity.
Qed.

Lemma step_getting_view env ev w :
  getting_view (fst (step env ev w)) = getting_step ev (getting_view w).
Proof.
  view_of_step.
  - js_run. destruct rn; [reflexivity |]. destruct (remoteVersion <? 2); reflexivity.
  - js_run. destruct s; try reflexivity; destruct rn; reflexivity.
  - destruct g; try reflexivity. destruct so; reflexivity.
  - js_run. destruct g; try reflexivity; destruct so; reflexivity.
  - destruct message as [ty [sg pi]]. cbn [data type signals proxyingId]. js_run.
    destruct sg; [destruct ty, rn, so | destruct (truthy pi)]; reflexivity.
  - js_run. destruct s; try reflexivity; destruct rn; reflexivity.
  - js_run. destruct up; reflexivity.
  - js_run. destruct up; reflexivity.
  - destruct status; reflexivity.
  - js_run. destruct up; reflexivity.
  - js_run. destruct up; reflexivity.
Qed.

(** ** Engines and the invariants *)

Lemma others_stopped_alter f ref l e :
  (forall st, stopFired st = true -> stopFired (f st) = true) ->
  others_stopped ref l -> others_stopped ref (alter f e l).
Proof.
  intros Hf H e' st Hl Hne.
  destruct (decide (e = e')) as [<- | Hd].
  - rewrite list_lookup_alter_eq in Hl.
    apply fmap_Some in Hl as (st0 & E & ->). apply Hf. eapply H; eauto.
  - rewrite list_lookup_alter_ne in Hl by assumption. eapply H; eauto.
Qed.

Lemma others_stopped_new l :
  others_stopped None l -> others_stopped (Some (length l)) (l ++ [fresh_engine]).
Proof.
  intros H e st Hl Hne.
  apply lookup_snoc_Some in Hl as [[_ Hl] | [-> _]].
  - eapply H; [eassumption | discriminate].
  - exfalso. apply Hne. reflexivity.
Qed.

Lemma others_stopped_fire ref l e :
  others_stopped ref l -> (ref = None \/ ref = Some e) ->
  others_stopped None (alter fire_stop e l).
Proof.
  intros H Href e' st Hl _.
  destruct (decide (e = e')) as [<- | Hd].
  - rewrite list_lookup_alter_eq in Hl.
    apply fmap_Some in Hl as (st0 & E & ->). reflexivity.
  - rewrite list_lookup_alter_ne in Hl by assumption.
    eapply H; eauto. destruct Href as [-> | ->]; congruence.
Qed.

Lemma live_engine_is_current ref l e st :
  others_stopped ref l -> l !! e = Some st -> stopFired st = false -> ref = Some e.
Proof.
  intros H Hl Hf. destruct (decide (ref = Some e)) as [| Hne]; [assumption |].
  rewrite (H e st Hl Hne) in Hf. discriminate.
Qed.

Lemma engine_can_Some p l e :
  engine_can p l e = true -> exists st, l !! e = Some st /\ p st = true.
Proof.
  unfold engine_can. destruct (l !! e) as [st |]; [eauto | discriminate].
Qed.

(** ** The sharing role keeps its invariant and moves along its edges *)

Lemma stop_sharing_inv v :
  sharing_inv v ->
  sharing_inv (stop_role SharingState.NONE
                 (fun s => SharingState.eqb s SharingState.NONE) v).
Proof.
  intros (H1 & H2 & H3). unfold stop_role.
  destruct (SharingState.eqb (role_state v) SharingState.NONE) eqn:E;
    [(split; [| split]); assumption |].
  destruct (role_engine v) as [e |] eqn:Er.
  - (split; [| split]); cbn.
    + apply others_stopped_alter; auto.
    + discriminate.
    + intros e' st [= <-] Hl Hq _.
      rewrite list_lookup_alter_eq in Hl.
      apply fmap_Some in Hl as (st0 & E0 & ->). discriminate.
  - rewrite H2 in E by reflexivity. discriminate.
Qed.

Lemma stop_sharing_edge v :
  sharing_edge (role_state v)
    (role_state (stop_role SharingState.NONE
                   (fun s => SharingState.eqb s SharingState.NONE) v)) = true.
Proof. destruct v as [[] r l]; reflexivity. Qed.

Lemma settle_ready_sharing_inv e v :
  sharing_inv v -> sharing_inv (with_engines (alter settle_ready e) v).
Proof.
  intros (H1 & H2 & H3). (split; [| split]); cbn.
  - apply others_stopped_alter; auto.
  - assumption.
  - intros e' st Href Hl Hq Hf.
    destruct (decide (e = e')) as [<- | Hd].
    + rewrite list_lookup_alter_eq in Hl.
      apply fmap_Some in Hl as (st0 & E & ->). eapply H3; eauto.
    + rewrite list_lookup_alter_ne in Hl by assumption. eapply H3; eauto.
Qed.

Lemma sharing_inv_init : sharing_inv (sharing_view init).
Proof.
  split; [| split]; cbn.
  - intros e st Hl. rewrite lookup_nil in Hl. discriminate.
  - reflexivity.
  - discriminate.
Qed.

Lemma sharing_step_ok ev v :
  sharing_inv v ->
  match ev with
  | rtcToNet_ready e =>
      engine_can (fun st => negb (stopRequested st) && negb (stopFired st))
                 (role_engines v) e = true
  | rtcToNet_stopped e =>
      engine_can (fun st => negb (stopFired st)) (role_engines v) e = true
  | _ => True
  end ->
  sharing_inv (sharing_step ev v)
  /\ sharing_edge (role_state v) (role_state (sharing_step ev v)) = true.
Proof.
  intros Hinv.
  assert (Hstay : sharing_edge (role_state v) (role_state v) = true)
    by (destruct (role_state v); reflexivity).
  destruct ev; cbn [sharing_step]; try (intros _; split; assumption).
  - (* startShare *)
    intros _. destruct Hinv as (H1 & H2 & H3).
    destruct (role_engine v) eqn:Er.
    { split; [| assumption]. split; [| split]; rewrite ?Er; assumption. }
    split.
    + split; [| split]; cbn; try discriminate. apply others_stopped_new. assumption.
    + cbn. rewrite H2 by reflexivity. reflexivity.
  - (* stopShare *)
    intros _. split; [apply stop_sharing_inv; assumption | apply stop_sharing_edge].
  - (* the engine is ready *)
    intros Hok. apply engine_can_Some in Hok as (st & Hl & Hp).
    apply andb_prop in Hp as [Hq Hf].
    apply negb_true_iff in Hq, Hf.
    destruct Hinv as (H1 & H2 & H3).
    pose proof (live_engine_is_current _ _ _ _ H1 Hl Hf) as Href.
    split.
    + split; [| split]; cbn; try discriminate.
      * apply others_stopped_alter; auto.
      * rewrite Href. discriminate.
    + cbn. specialize (H3 e st Href Hl Hq Hf).
      destruct (role_state v); [congruence | reflexivity | reflexivity].
  - (* the engine failed to get ready *)
    intros _. split.
    + apply stop_sharing_inv, settle_ready_sharing_inv. assumption.
    + apply (stop_sharing_edge (with_engines (alter settle_ready e) v)).
  - (* the engine has stopped *)
    intros Hen. apply engine_can_Some in Hen as (st & Hl & Hp).
    apply negb_true_iff in Hp.
    destruct Hinv as (H1 & H2 & H3).
    pose proof (live_engine_is_current _ _ _ _ H1 Hl Hp) as Href.
    split.
    + split; [| split]; cbn; try discriminate.
      * eapply others_stopped_fire; eauto.
      * reflexivity.
    + cbn. destruct (role_state v); reflexivity.
Qed.

Lemma sharing_inv_step env ev w :
  sharing_inv (sharing_view w) ->
  enabled w ev = true -> sharing_ready_before_stop w ev = true ->
  sharing_inv (sharing_view (fst (step env ev w)))
  /\ sharing_edge (sharing_of w) (sharing_of (fst (step env ev w))) = true.
Proof.
  intros Hinv Hen Hok.
  change (sharing_of (fst (step env ev w)))
    with (role_state (sharing_view (fst (step env ev w)))).
  rewrite step_sharing_view.
  apply (sharing_step_ok ev (sharing_view w) Hinv).
  destruct ev; try exact I; assumption.
Qed.

Lemma sharing_paths_from env evs : forall w,
  sharing_inv (sharing_view w) ->
  throughout env enabled evs w = true ->
  throughout env sharing_ready_before_stop evs w = true ->
  along sharing_edge (sharing_history env evs w) = true.
Proof.
  induction evs as [| ev evs IH]; intros w Hinv Hen Hok; [reflexivity |].
  cbn [throughout] in Hen, Hok.
  apply andb_prop in Hen as [Hen Hens], Hok as [Hok Hoks].
  destruct (sharing_inv_step env ev w Hinv Hen Hok) as [Hinv' Hedge].
  specialize (IH _ Hinv' Hens Hoks).
  unfold sharing_history in *. cbn [visited map].
  destruct evs; cbn [visited map along] in *; rewrite Hedge; [reflexivity | exact IH].
Qed.

(** ** The getting role keeps its invariant *)

Lemma getting_inv_init : getting_inv (getting_view init).
Proof.
  split; cbn.
  - intros e st Hl. rewrite lookup_nil in Hl. discriminate.
  - reflexivity.
Qed.

Lemma stop_getting_inv v :
  getting_inv v ->
  getting_inv (stop_role GettingState.NONE
                 (fun s => GettingState.eqb s GettingState.NONE) v).
Proof.
  intros (H1 & H2). unfold stop_role.
  destruct (GettingState.eqb (role_state v) GettingState.NONE); [split; assumption |].
  split; cbn; [| reflexivity].
  destruct (role_engine v); [apply others_stopped_alter; auto | assumption].
Qed.

Lemma getting_step_ok ev v :
  getting_inv v ->
  match ev with
  | socksToRtc_ready e _ | socksToRtc_stopping e =>
      engine_can (fun st => negb (stopFired st)) (role_engines v) e = true
  | _ => True
  end ->
  getting_inv (getting_step ev v).
Proof.
  intros Hinv.
  destruct ev; cbn [getting_step]; try (intros _; assumption).
  - (* startGet *)
    intros _.
    destruct (role_state v) eqn:Es; [| assumption | assumption].
    destruct (role_engine v) eqn:Er; [assumption |].
    destruct Hinv as (H1 & H2). rewrite Er in H1.
    split; cbn; [| discriminate]. apply others_stopped_new. assumption.
  - (* stopGet *)
    intros _. apply stop_getting_inv. assumption.
  - (* the engine is ready *)
    intros Hok. apply engine_can_Some in Hok as (st & Hl & Hf).
    apply negb_true_iff in Hf.
    destruct Hinv as (H1 & H2).
    pose proof (live_engine_is_current _ _ _ _ H1 Hl Hf) as Href.
    split; cbn.
    + apply others_stopped_alter; auto.
    + rewrite Href. discriminate.
  - (* the engine failed to start *)
    intros _. destruct Hinv as (H1 & H2).
    split; cbn; [| reflexivity]. apply others_stopped_alter; auto.
  - (* the engine is stopping *)
    intros Hen. apply engine_can_Some in Hen as (st & Hl & Hf).
    apply negb_true_iff in Hf.
    destruct Hinv as (H1 & H2).
    pose proof (live_engine_is_current _ _ _ _ H1 Hl Hf) as Href.
    split; cbn; [| reflexivity]. eapply others_stopped_fire; eauto.
Qed.

Lemma getting_inv_step env ev w :
  getting_inv (getting_view w) ->
  enabled w ev = true -> getting_ready_before_stopping w ev = true ->
  getting_inv (getting_view (fst (step env ev w))).
Proof.
  intros Hinv Hen Hok. rewrite step_getting_view.
  apply (getting_step_ok ev (getting_view w) Hinv).
  destruct ev; try exact I; assumption.
Qed.

Lemma getting_inv_exec env evs : forall w,
  getting_inv (getting_view w) ->
  throughout env enabled evs w = true ->
  throughout env getting_ready_before_stopping evs w = true ->
  getting_inv (getting_view (fst (exec env evs w))).
Proof.
  induction evs as [| ev evs IH]; intros w Hinv Hen Hok; [assumption |].
  cbn [throughout] in Hen, Hok.
  apply andb_prop in Hen as [Hen Hens], Hok as [Hok Hoks].
  pose proof (getting_inv_step env ev w Hinv Hen Hok) as Hinv'.
  specialize (IH _ Hinv' Hens Hoks). cbn [exec].
  destruct (step env ev w) as [w1 fx1]. cbn [fst] in IH.
  destruct (exec env evs w1) as [w2 fx2]. exact IH.
Qed.

(** ** The letters of a session id *)

Lemma floor_of_draw (r : Q) (n : Z) :
  (0 <= r)%Q -> (r < 1)%Q -> 0 < n ->
  0 <= Qfloor (r * inject_Z n) <= n - 1.
Proof.
  intros H0 H1 Hn.
  assert (Hn' : (0 < inject_Z n)%Q) by (unfold Qlt; cbn; lia).
  split.
  - rewrite <- (Qfloor_Z 0). apply Qfloor_resp_le.
    apply Qmult_le_0_compat; [assumption | apply Qlt_le_weak; assumption].
  - assert (Hlt : (inject_Z (Qfloor (r * inject_Z n)) < inject_Z n)%Q).
    { eapply Qle_lt_trans; [apply Qfloor_le |].
      rewrite <- (Qmult_1_l (inject_Z n)) at 2.
      apply Qmult_lt_compat_r; assumption. }
    rewrite <- Zlt_Qlt in Hlt. lia.
Qed.

Lemma String_fromCharCode_letter (c : Z) :
  97 <= c <= 121 -> letter_upto 121 (String_fromCharCode c).
Proof.
  intros Hc. exists (ascii_of_N (Z.to_N c)). split; [reflexivity |].
  rewrite N_ascii_embedding by lia. rewrite Z2N.id by lia. exact Hc.
Qed.

Lemma letters_from_letters env first n :
  (forall k, (0 <= Math_random env k)%Q /\ (Math_random env k < 1)%Q) ->
  Forall (letter_upto 121) (letters_from env first n).
Proof.
  intros Hr. unfold letters_from. apply List.Forall_forall. intros s Hs.
  apply in_map_iff in Hs as (k & <- & _).
  apply String_fromCharCode_letter.
  destruct (Hr k) as [H0 H1].
  pose proof (floor_of_draw (Math_random env k) (122 - 97) H0 H1 ltac:(lia)).
  lia.
Qed.

Lemma letters_from_length env first n :
  length (letters_from env first n) = n.
Proof. unfold letters_from. rewrite length_map. apply length_seq. Qed.

Lemma concat_letters hi (l : list string) :
  Forall (letter_upto hi) l ->
  String.length (String.concat "" l) = length l
  /\ Forall (fun c => 97 <= Z.of_N (N_of_ascii c) <= hi)
            (list_ascii_of_string (String.concat "" l)).
Proof.
  induction 1 as [| s l (c & -> & Hc) Hl [IHlen IHall]].
  - split; [reflexivity | constructor].
  - destruct l as [| s' l'].
    + split; [reflexivity |]. cbn. constructor; [assumption | constructor].
    + change (String.concat "" (String c EmptyString :: s' :: l'))
        with (String c (String.concat "" (s' :: l'))).
      cbn [String.length list_ascii_of_string length]. split.
      * f_equal. exact IHlen.
      * constructor; assumption.
Qed.

Lemma startGet_id_shape env w :
  (forall k, (0 <= Math_random env k)%Q /\ (Math_random env k < 1)%Q) ->
  String.length (startGet_id env w) = 16%nat
  /\ Forall (fun c => 97 <= Z.of_N (N_of_ascii c) <= 121)
            (list_ascii_of_string (startGet_id env w)).
Proof.
  intros Hr. unfold startGet_id.
  destruct (concat_letters 121 _ (letters_from_letters env (randomCalls w) 16 Hr))
    as [Hlen Hall].
  rewrite letters_from_length in Hlen. split; assumption.
Qed.

Lemma lowercase_upto_121 s :
  Forall (fun c => 97 <= Z.of_N (N_of_ascii c) <= 121) (list_ascii_of_string s) ->
  lowercase s.
Proof.
  unfold lowercase, lowercase_code. intros H.
  eapply List.Forall_impl; [| exact H]. cbn. intros c Hc. lia.
Qed.

(** The generator never gives the letter [z] (code 122): a draw below 1
    times 25 has a floor of at most 24. *)
Lemma generateProxyingSessionId_never_z env w :
  (forall k, (0 <= Math_random env k)%Q /\ (Math_random env k < 1)%Q) ->
  exists sid w',
    generateProxyingSessionId_ env w = (Returned sid, w', [])
    /\ ~ In "z"%char (list_ascii_of_string sid).
Proof.
  intros Hr. rewrite generateProxyingSessionId_spec. do 2 eexists.
  split; [reflexivity |].
  destruct (startGet_id_shape env w Hr) as [_ Hall].
  intros Hin. rewrite List.Forall_forall in Hall. apply Hall in Hin.
  vm_compute in Hin. destruct Hin as [_ Hin]. apply Hin. reflexivity.
Qed.

(** ** Metadata envelopes, byte counts and the timer *)

Lemma handleSignal_metadata ty pi w :
  handleSignal {| type := ty; data := {| signals := None; proxyingId := pi |} |} w
  = (Returned (JS_promise Promise_resolve),
     (if truthy pi then with_conn (set_proxyingId_ pi) w else w),
     (if truthy pi
      then [log info "proxying session %1 initiated by remote peer"]
      else [])).
Proof.
  unfold handleSignal, handleMetadataSignal_. cbn [data signals proxyingId].
  destruct (truthy pi); reflexivity.
Qed.

Lemma byte_count_first env ev w :
  is_byte_count ev = true -> isUpdatePending_ (conn w) = false ->
  snd (step env ev w) = [setTimeout 1000]
  /\ isUpdatePending_ (conn (fst (step env ev w))) = true
  /\ pendingTimeouts (fst (step env ev w)) = S (pendingTimeouts w).
Proof.
  intros Hev Hp. open_world w. subst.
  destruct ev; try discriminate; repeat split.
Qed.

Lemma byte_count_pending env ev w :
  is_byte_count ev = true -> isUpdatePending_ (conn w) = true ->
  snd (step env ev w) = []
  /\ isUpdatePending_ (conn (fst (step env ev w))) = true
  /\ pendingTimeouts (fst (step env ev w)) = pendingTimeouts w.
Proof.
  intros Hev Hp. open_world w. subst.
  destruct ev; try discriminate; repeat split.
Qed.

Lemma byte_counts_pending env evs : forall w,
  forallb is_byte_count evs = true -> isUpdatePending_ (conn w) = true ->
  snd (exec env evs w) = []
  /\ isUpdatePending_ (conn (fst (exec env evs w))) = true
  /\ pendingTimeouts (fst (exec env evs w)) = pendingTimeouts w.
Proof.
  induction evs as [| ev evs IH]; intros w Hall Hp; [repeat split; exact Hp |].
  cbn [forallb] in Hall. apply andb_prop in Hall as [Hev Hall].
  destruct (byte_count_pending env ev w Hev Hp) as (Hfx & Hp1 & Ht1).
  cbn [exec]. destruct (step env ev w) as [w1 fx1]. cbn [fst snd] in Hfx, Hp1, Ht1.
  destruct (IH w1 Hall Hp1) as (Hfx2 & Hp2 & Ht2).
  destruct (exec env evs w1) as [w2 fx2]. cbn [fst snd] in *.
  subst. repeat split; [exact Hp2 | congruence].
Qed.

Lemma step_timeout env w :
  step env timeout w
  = (with_conn (set_isUpdatePending_ false) (with_pendingTimeouts Nat.pred w),
     [sendUpdate (STATE (getCurrentState (conn w)))]).
Proof. reflexivity. Qed.

(** * Properties *)

(** ** Choosing the transport *)

(** C1: [startGet], when it does not throw, gives the getting engine the
    peer connection that the tier of [min local remote] selects: the old
    peer connection for PRE_BRIDGE, the bridge without obfuscation for
    BRIDGE, with basic obfuscation for CAESAR, holographic ICE for
    HOLOGRAPHIC_ICE and ENCRYPTED_SIGNALS, and for every version above
    all tiers holographic ICE with the RC4 transformer, keyed by a call
    to [rc4.randomConfig] made in this very call (the number of such
    calls goes up by one; in the other cases it stays). *)
Theorem C1_startGet_selects_transport env remoteVersion w :
  let V := MESSAGE_VERSIONS env in
  let commonVersion := Z.min (effectiveMessageVersion env) remoteVersion in
  PRE_BRIDGE V < BRIDGE V -> BRIDGE V < CAESAR V ->
  CAESAR V < HOLOGRAPHIC_ICE V -> HOLOGRAPHIC_ICE V < ENCRYPTED_SIGNALS V ->
  getting_of w = GettingState.NONE -> socksToRtc_ (conn w) = None ->
  exists pc w' fx,
    startGet env remoteVersion w
    = (Returned (JS_promise (SocksToRtc_started (length (socksToRtcs w)))), w', fx)
    /\ getting_started_with fx = [(length (socksToRtcs w), pc)]
    /\ (commonVersion = PRE_BRIDGE V ->
        pc = PeerConnectionClass "sockstortc" /\ rc4Calls w' = rc4Calls w)
    /\ (commonVersion = BRIDGE V ->
        pc = bridge_preObfuscation "sockstortc" /\ rc4Calls w' = rc4Calls w)
    /\ (commonVersion = CAESAR V ->
        pc = bridge_basicObfuscation "sockstortc" /\ rc4Calls w' = rc4Calls w)
    /\ (commonVersion = HOLOGRAPHIC_ICE V \/ commonVersion = ENCRYPTED_SIGNALS V ->
        pc = bridge_holographicIceOnly "sockstortc" None
        /\ rc4Calls w' = rc4Calls w)
    /\ (ENCRYPTED_SIGNALS V < commonVersion ->
        pc = bridge_holographicIceOnly "sockstortc"
               (Some {| name := "rc4";
                        config := rc4_randomConfig env (rc4Calls w) |})
        /\ rc4Calls w' = S (rc4Calls w)).
Proof.
  intros V commonVersion H12 H23 H34 H45 Hg Hs.
  rewrite (startGet_returns env remoteVersion w Hg Hs).
  do 3 eexists. split; [reflexivity |]. split; [reflexivity |].
  unfold startGet_world, switch_commonVersion, switch_default.
  cbn [rc4Calls]. fold V. fold commonVersion.
  refine (conj _ (conj _ (conj _ (conj _ _)))); intros Hcv;
    repeat match goal with
      | |- context [?a =? ?b] => destruct (Z.eqb_spec a b)
      end;
    first [split; reflexivity | lia | destruct Hcv; lia].
Qed.

Lemma C1_startGet_selects_transport_witness :
  exists pc w' fx,
    startGet example_env 9 init
    = (Returned (JS_promise (SocksToRtc_started 0%nat)), w', fx)
    /\ getting_started_with fx = [(0%nat, pc)]
    /\ (Z.min 6 9 = 1 ->
        pc = PeerConnectionClass "sockstortc" /\ rc4Calls w' = 0%nat)
    /\ (Z.min 6 9 = 2 ->
        pc = bridge_preObfuscation "sockstortc" /\ rc4Calls w' = 0%nat)
    /\ (Z.min 6 9 = 3 ->
        pc = bridge_basicObfuscation "sockstortc" /\ rc4Calls w' = 0%nat)
    /\ (Z.min 6 9 = 4 \/ Z.min 6 9 = 5 ->
        pc = bridge_holographicIceOnly "sockstortc" None
        /\ rc4Calls w' = 0%nat)
    /\ (5 < Z.min 6 9 ->
        pc = bridge_holographicIceOnly "sockstortc"
               (Some {| name := "rc4"; config := "A" |})
        /\ rc4Calls w' = 1%nat).
Proof.
  apply (C1_startGet_selects_transport example_env 9 init); reflexivity.
Defined.

(** ** The sharing role *)

Example sharing_started_then_stopped :
  sharing_history example_env
    [call_startShare 2; rtcToNet_ready 0%nat; call_stopShare; rtcToNet_stopped 0%nat]
    init
  = [SharingState.NONE; SharingState.TRYING_TO_SHARE_ACCESS;
     SharingState.SHARING_ACCESS; SharingState.NONE; SharingState.NONE].
Proof. reflexivity. Qed.

(** C2, as the specification words it, fails: [stopShare] during the
    start sets NONE, and when the engine then becomes ready all the same
    the reaction on [onceReady] sets SHARING_ACCESS without looking at the
    state, so the state goes from NONE straight to SHARING_ACCESS. *)
Lemma C2_ready_after_stopShare_skips_trying :
  ~ sharing_paths_whatever_engines_signal example_env.
Proof.
  intros H.
  specialize (H [call_startShare 2; call_stopShare; rtcToNet_ready 0%nat;
                 rtcToNet_stopped 0%nat]).
  vm_compute in H. specialize (H eq_refl eq_refl). discriminate.
Qed.

(** C2, amended: in every run in which no sharing engine becomes ready
    after [stop()] was called on it or after it stopped, the sharing state
    only moves NONE -> TRYING_TO_SHARE_ACCESS -> SHARING_ACCESS -> NONE
    or NONE -> TRYING_TO_SHARE_ACCESS -> NONE. *)
Theorem C2_sharing_state_follows_paths env evs :
  throughout env enabled evs init = true ->
  throughout env sharing_ready_before_stop evs init = true ->
  along sharing_edge (sharing_history env evs init) = true.
Proof. apply sharing_paths_from, sharing_inv_init. Qed.

Lemma C2_sharing_state_follows_paths_witness :
  along sharing_edge
    (sharing_history example_env
       [call_startShare 2; rtcToNet_ready 0%nat; call_stopShare;
        rtcToNet_stopped 0%nat; call_startShare 1;
        rtcToNet_failed 1%nat (JSError "no peer connection");
        rtcToNet_stopped 1%nat]
       init) = true.
Proof.
  apply (C2_sharing_state_follows_paths example_env); vm_compute; reflexivity.
Defined.

(** ** Faults and no-ops *)

(** C3: [startGet] called while [gettingState] is not NONE, or while a
    getting engine exists, throws to its caller (it does not return a
    promise) and changes nothing: the world after the call is the world
    before it, field by field, and the only output is the error log. *)
Theorem C3_startGet_fault_leaves_session env remoteVersion w :
  getting_of w <> GettingState.NONE \/ socksToRtc_ (conn w) <> None ->
  exists message,
    startGet env remoteVersion w = (Thrown (JSError message), w, [log error message]).
Proof. apply startGet_throws. Qed.

Lemma C3_startGet_fault_witness :
  exists message,
    startGet example_env 5 (fst (step example_env (call_startGet 5) init))
    = (Thrown (JSError message), fst (step example_env (call_startGet 5) init),
       [log error message]).
Proof.
  apply (C3_startGet_fault_leaves_session example_env 5).
  left. vm_compute. discriminate.
Defined.

(** C4: the promise [startGet] returns is the one chained on the start of
    the engine it made; when that start fails, at whatever later moment
    and for whatever cause, the reaction leaves [gettingState] NONE and
    changes nothing else of the session, sends one STATE update, which
    shows NONE and is the state the session is left in, and rejects that
    promise with [Error('Could not start proxy')]; what the reaction sends
    and rejects with is the same for every cause. *)
Theorem C4_start_failure_is_generic env remoteVersion w :
  getting_of w = GettingState.NONE -> socksToRtc_ (conn w) = None ->
  let e := length (socksToRtcs w) in
  fst (fst (startGet env remoteVersion w))
  = Returned (JS_promise (SocksToRtc_started e))
  /\ (forall cause,
        enabled (snd (fst (startGet env remoteVersion w)))
                (socksToRtc_failed e cause) = true)
  /\ (forall cause w1,
        step env (socksToRtc_failed e cause) w1
        = (with_conn (set_localGettingFromRemote GettingState.NONE)
             (with_socksToRtcs (alter settle_ready e) w1),
           [sendUpdate
              (STATE (getCurrentState
                        (set_localGettingFromRemote GettingState.NONE (conn w1))));
            settle (SocksToRtc_started e)
                   (rejected (JSError "Could not start proxy"))]))
  /\ (forall cause w1,
        let w2 := fst (step env (socksToRtc_failed e cause) w1) in
        let fx := snd (step env (socksToRtc_failed e cause) w1) in
        getting_of w2 = GettingState.NONE
        /\ (exists s,
              fx = [sendUpdate (STATE s);
                    settle (SocksToRtc_started e)
                           (rejected (JSError "Could not start proxy"))]
              /\ localGettingFromRemote s = GettingState.NONE
              /\ s = getCurrentState (conn w2))
        /\ sharing_of w2 = sharing_of w1
        /\ bytesSent_ (conn w2) = bytesSent_ (conn w1)
        /\ bytesReceived_ (conn w2) = bytesReceived_ (conn w1)
        /\ socksToRtc_ (conn w2) = socksToRtc_ (conn w1)
        /\ rtcToNet_ (conn w2) = rtcToNet_ (conn w1)
        /\ activeEndpoint (conn w2) = activeEndpoint (conn w1)
        /\ getProxyingId (conn w2) = getProxyingId (conn w1))
  /\ (forall cause cause' w1,
        snd (step env (socksToRtc_failed e cause) w1)
        = snd (step env (socksToRtc_failed e cause') w1)).
Proof.
  intros Hg Hs e. rewrite (startGet_returns env remoteVersion w Hg Hs).
  split; [reflexivity |]. split; [| split; [| split]].
  - intros cause. cbn [fst snd enabled startGet_world socksToRtcs].
    unfold engine_can. fold e.
    rewrite list_lookup_middle by reflexivity. reflexivity.
  - intros cause w1. reflexivity.
  - intros cause w1 w2 fx. split; [reflexivity |].
    split; [eexists; split; [reflexivity | split; reflexivity] |].
    repeat (split; [reflexivity |]). reflexivity.
  - intros cause cause' w1. reflexivity.
Qed.

Lemma C4_start_failure_witness :
  fst (fst (startGet example_env 5 init))
  = Returned (JS_promise (SocksToRtc_started 0%nat))
  /\ (forall cause,
        enabled (snd (fst (startGet example_env 5 init)))
                (socksToRtc_failed 0%nat cause) = true)
  /\ (forall cause w1,
        step example_env (socksToRtc_failed 0%nat cause) w1
        = (with_conn (set_localGettingFromRemote GettingState.NONE)
             (with_socksToRtcs (alter settle_ready 0%nat) w1),
           [sendUpdate
              (STATE (getCurrentState
                        (set_localGettingFromRemote GettingState.NONE (conn w1))));
            settle (SocksToRtc_started 0%nat)
                   (rejected (JSError "Could not start proxy"))]))
  /\ (forall cause w1,
        let w2 := fst (step example_env (socksToRtc_failed 0%nat cause) w1) in
        let fx := snd (step example_env (socksToRtc_failed 0%nat cause) w1) in
        getting_of w2 = GettingState.NONE
        /\ (exists s,
              fx = [sendUpdate (STATE s);
                    settle (SocksToRtc_started 0%nat)
                           (rejected (JSError "Could not start proxy"))]
              /\ localGettingFromRemote s = GettingState.NONE
              /\ s = getCurrentState (conn w2))
        /\ sharing_of w2 = sharing_of w1
        /\ bytesSent_ (conn w2) = bytesSent_ (conn w1)
        /\ bytesReceived_ (conn w2) = bytesReceived_ (conn w1)
        /\ socksToRtc_ (conn w2) = socksToRtc_ (conn w1)
        /\ rtcToNet_ (conn w2) = rtcToNet_ (conn w1)
        /\ activeEndpoint (conn w2) = activeEndpoint (conn w1)
        /\ getProxyingId (conn w2) = getProxyingId (conn w1))
  /\ (forall cause cause' w1,
        snd (step example_env (socksToRtc_failed 0%nat cause) w1)
        = snd (step example_env (socksToRtc_failed 0%nat cause') w1)).
Proof.
  apply (C4_start_failure_is_generic example_env 5 init); reflexivity.
Defined.

(** C5: [stopShare] while the sharing state is NONE and [stopGet] while
    the getting state is NONE each log a warning, send no update and
    leave the session as it was; [stopShare] returns a resolved promise,
    [stopGet] returns [undefined] (its bare [return;]), not a promise. *)
Theorem C5_stop_without_role w :
  sharing_of w = SharingState.NONE ->
  getting_of w = GettingState.NONE ->
  stopShare w
  = (Returned (JS_promise Promise_resolve), w,
     [log warn "Cannot stop sharing when neither sharing nor trying to share."])
  /\ stopGet w
     = (Returned JS_undefined, w,
        [log warn "Cannot stop proxying when neither proxying nor trying to proxy."]).
Proof.
  unfold sharing_of, getting_of, stopShare, stopGet.
  intros Hs Hg. rewrite !bind_this. rewrite Hs, Hg. split; reflexivity.
Qed.

Lemma C5_stop_without_role_witness :
  stopShare init
  = (Returned (JS_promise Promise_resolve), init,
     [log warn "Cannot stop sharing when neither sharing nor trying to share."])
  /\ stopGet init
     = (Returned JS_undefined, init,
        [log warn "Cannot stop proxying when neither proxying nor trying to proxy."]).
Proof.
  apply (C5_stop_without_role init); reflexivity.
Defined.

(** C6: a forwarded signal whose addressed role has no engine (from the
    client peer without a sharing engine, from the server peer without a
    getting engine) is dropped: [handleSignal] logs one warning, throws
    nothing, calls no engine and leaves the session as it was. *)
Theorem C6_unroutable_signal_dropped w ty d payload :
  signals d = Some payload ->
  (ty = PeerMessageType.SIGNAL_FROM_CLIENT_PEER /\ rtcToNet_ (conn w) = None)
  \/ (ty = PeerMessageType.SIGNAL_FROM_SERVER_PEER /\ socksToRtc_ (conn w) = None) ->
  handleSignal {| type := ty; data := d |} w
  = (Returned JS_undefined, w, [log warn "Invalid signal: "]).
Proof.
  intros Hsig H. unfold handleSignal. cbn [data type]. rewrite Hsig.
  unfold forwardSignal_. rewrite bind_this.
  destruct H as [[-> Hr] | [-> Hs]].
  - rewrite Hr. reflexivity.
  - rewrite Hs. destruct (rtcToNet_ (conn w)); reflexivity.
Qed.

Lemma C6_unroutable_signal_witness :
  handleSignal
    {| type := PeerMessageType.SIGNAL_FROM_CLIENT_PEER;
       data := {| signals := Some ["offer"]; proxyingId := None |} |}
    (fst (step example_env (call_startGet 5) init))
  = (Returned JS_undefined, fst (step example_env (call_startGet 5) init),
     [log warn "Invalid signal: "]).
Proof.
  apply (C6_unroutable_signal_dropped _ _ _ ["offer"]).
  - reflexivity.
  - left. split; reflexivity.
Defined.

(** ** The debounced refresh *)

(** C7: a window opens with a byte-count event that finds no refresh
    pending.  That event sets the one timer, of 1000 ms; the byte-count
    events that follow set none; none of them sends a STATE update; the
    refresh stays pending until the timer fires, and the firing sends the
    window's one STATE update and clears the flag. *)
Theorem C7_one_refresh_per_window env ev evs w :
  isUpdatePending_ (conn w) = false ->
  is_byte_count ev = true -> forallb is_byte_count evs = true ->
  let w1 := fst (step env ev w) in
  let fx1 := snd (step env ev w) in
  let w2 := fst (exec env evs w1) in
  let fx2 := snd (exec env evs w1) in
  let w3 := fst (step env timeout w2) in
  let fx3 := snd (step env timeout w2) in
  timeouts_set fx1 = [1000]
  /\ isUpdatePending_ (conn w1) = true
  /\ timeouts_set fx2 = []
  /\ isUpdatePending_ (conn w2) = true
  /\ STATE_updates (fx1 ++ fx2) = []
  /\ enabled w2 timeout = true
  /\ STATE_updates (fx1 ++ fx2 ++ fx3) = [getCurrentState (conn w2)]
  /\ isUpdatePending_ (conn w3) = false.
Proof.
  intros Hp Hev Hevs w1 fx1 w2 fx2 w3 fx3.
  destruct (byte_count_first env ev w Hev Hp) as (Hfx1 & Hp1 & Ht1).
  destruct (byte_counts_pending env evs w1 Hevs Hp1) as (Hfx2 & Hp2 & Ht2).
  subst fx3 w3. rewrite step_timeout. cbn [fst snd].
  subst fx1 fx2. rewrite Hfx1, Hfx2.
  repeat split; try reflexivity; try assumption.
  cbn [enabled]. fold w1 in Ht1. fold w2 in Ht2. rewrite Ht2, Ht1. reflexivity.
Qed.

Lemma C7_one_refresh_per_window_witness :
  let ev := socksToRtc_bytesReceivedFromPeer 0%nat 1200 in
  let evs := [socksToRtc_bytesSentToPeer 0%nat 64;
              socksToRtc_bytesReceivedFromPeer 0%nat 4096] in
  let w := fst (step example_env (call_startGet 5) init) in
  let w1 := fst (step example_env ev w) in
  let fx1 := snd (step example_env ev w) in
  let w2 := fst (exec example_env evs w1) in
  let fx2 := snd (exec example_env evs w1) in
  let w3 := fst (step example_env timeout w2) in
  let fx3 := snd (step example_env timeout w2) in
  timeouts_set fx1 = [1000]
  /\ isUpdatePending_ (conn w1) = true
  /\ timeouts_set fx2 = []
  /\ isUpdatePending_ (conn w2) = true
  /\ STATE_updates (fx1 ++ fx2) = []
  /\ enabled w2 timeout = true
  /\ STATE_updates (fx1 ++ fx2 ++ fx3) = [getCurrentState (conn w2)]
  /\ isUpdatePending_ (conn w3) = false.
Proof.
  apply (C7_one_refresh_per_window example_env
           (socksToRtc_bytesReceivedFromPeer 0%nat 1200)
           [socksToRtc_bytesSentToPeer 0%nat 64;
            socksToRtc_bytesReceivedFromPeer 0%nat 4096]
           (fst (step example_env (call_startGet 5) init)));
    vm_compute; reflexivity.
Defined.

(** ** The proxying session id *)

Example session_id_of_example :
  getProxyingId (conn (fst (step example_env (call_startGet 5) init)))
  = Some "arkcumfwpharkcum".
Proof. vm_compute. reflexivity. Qed.

(** C8, as the specification words it, fails on an envelope whose id is
    the empty string: [handleMetadataSignal_] records an id only when it
    is truthy, so [getProxyingId] does not return the carried id. *)
Lemma C8_empty_metadata_id_not_recorded : ~ metadata_id_always_recorded.
Proof.
  intros H. specialize (H init (PeerMessageType.OTHER 0) "").
  vm_compute in H. discriminate.
Qed.

(** C8, amended: with every draw of [Math.random] in [0, 1), the
    generator, in whatever state of the session, returns 16 characters,
    each a lowercase letter, and after a [startGet] that does not throw
    [getProxyingId] returns such a string; in whatever state of the
    session and whatever the random source, after a metadata envelope
    with a non-empty id [getProxyingId] returns that id, and an envelope
    with an empty id leaves it as it was. *)
Theorem C8_proxying_session_id env remoteVersion w ty id :
  ((forall k, (0 <= Math_random env k)%Q /\ (Math_random env k < 1)%Q) ->
   (exists sid w',
       generateProxyingSessionId_ env w = (Returned sid, w', [])
       /\ String.length sid = 16%nat /\ lowercase sid)
   /\ (getting_of w = GettingState.NONE -> socksToRtc_ (conn w) = None ->
       exists sid,
         getProxyingId (conn (snd (fst (startGet env remoteVersion w)))) = Some sid
         /\ String.length sid = 16%nat /\ lowercase sid))
  /\ (id <> "" ->
      getProxyingId
        (conn (snd (fst (handleSignal
                           {| type := ty;
                              data := {| signals := None; proxyingId := Some id |} |}
                           w))))
      = Some id)
  /\ getProxyingId
       (conn (snd (fst (handleSignal
                          {| type := ty;
                             data := {| signals := None; proxyingId := Some "" |} |}
                          w))))
     = getProxyingId (conn w).
Proof.
  split; [| split].
  - intros Hr. destruct (startGet_id_shape env w Hr) as [Hlen Hall].
    apply lowercase_upto_121 in Hall. split.
    + rewrite generateProxyingSessionId_spec. do 2 eexists.
      split; [reflexivity |]. split; assumption.
    + intros Hg Hs. rewrite (startGet_returns env remoteVersion w Hg Hs).
      exists (startGet_id env w). split; [reflexivity |]. split; assumption.
  - intros Hid. rewrite handleSignal_metadata. cbn [truthy].
    destruct (String.eqb_spec id ""); [contradiction | reflexivity].
  - rewrite handleSignal_metadata. reflexivity.
Qed.

Lemma C8_proxying_session_id_witness :
  let w := fst (exec example_env
                  [call_startGet 5; socksToRtc_ready 0%nat example_endpoint] init) in
  (exists sid w',
      generateProxyingSessionId_ example_env w = (Returned sid, w', [])
      /\ String.length sid = 16%nat /\ lowercase sid)
  /\ (exists sid,
        getProxyingId (conn (snd (fst (startGet example_env 5 init)))) = Some sid
        /\ String.length sid = 16%nat /\ lowercase sid)
  /\ getProxyingId
       (conn (snd (fst (handleSignal
                          {| type := PeerMessageType.SIGNAL_FROM_CLIENT_PEER;
                             data := {| signals := None;
                                        proxyingId := Some "qwertyuiopasdfgh" |} |}
                          w))))
     = Some "qwertyuiopasdfgh"
  /\ getProxyingId
       (conn (snd (fst (handleSignal
                          {| type := PeerMessageType.SIGNAL_FROM_CLIENT_PEER;
                             data := {| signals := None; proxyingId := Some "" |} |}
                          w))))
     = getProxyingId (conn w).
Proof.
  intros w.
  assert (Hr : forall k, (0 <= Math_random example_env k)%Q
                         /\ (Math_random example_env k < 1)%Q).
  { intros k. cbn [Math_random example_env]. unfold Qle, Qlt. cbn [Qnum Qden].
    pose proof (Nat.mod_upper_bound (7 * k) 10 ltac:(discriminate)). lia. }
  destruct (C8_proxying_session_id example_env 5 w
              PeerMessageType.SIGNAL_FROM_CLIENT_PEER "qwertyuiopasdfgh")
    as (Hgen & Hid & Hempty).
  destruct (C8_proxying_session_id example_env 5 init
              PeerMessageType.SIGNAL_FROM_CLIENT_PEER "qwertyuiopasdfgh")
    as (Hget & _ & _).
  split; [exact (proj1 (Hgen Hr)) |].
  split; [exact (proj2 (Hget Hr) eq_refl eq_refl) |].
  split; [apply Hid; discriminate | exact Hempty].
Defined.

(** ** The getting role *)

Example getting_started_then_stopped :
  map getting_view
    (visited example_env
       [call_startGet 5; socksToRtc_ready 0%nat example_endpoint;
        call_stopGet; socksToRtc_stopping 0%nat]
       init)
  = [ {| role_state := GettingState.NONE; role_engine := None;
         role_engines := [] |};
      {| role_state := GettingState.TRYING_TO_GET_ACCESS; role_engine := Some 0%nat;
         role_engines := [fresh_engine] |};
      {| role_state := GettingState.GETTING_ACCESS; role_engine := Some 0%nat;
         role_engines := [settle_ready fresh_engine] |};
      {| role_state := GettingState.NONE; role_engine := Some 0%nat;
         role_engines := [request_stop (settle_ready fresh_engine)] |};
      {| role_state := GettingState.NONE; role_engine := None;
         role_engines := [fire_stop (request_stop (settle_ready fresh_engine))] |} ].
Proof. vm_compute. reflexivity. Qed.

(** C9, as the specification words it, fails: right after [stopGet]
    returns, [gettingState] is NONE and the engine reference is still
    set; only the reaction on the engine's stopping clears it. *)
Lemma C9_reference_outlives_stopGet :
  ~ getting_none_means_no_reference example_env.
Proof.
  intros H. specialize (H [call_startGet 5; call_stopGet]).
  vm_compute in H. specialize (H eq_refl eq_refl). discriminate.
Qed.

(** C9, amended: in every state reached by a run in which no getting
    engine reports a successful start after it signalled stopping, a null
    engine reference implies [gettingState] NONE.  Not the other way
    round: [stopGet] and the start-failure reaction set the state to NONE
    and leave the reference as it is; the reaction on the engine's
    stopping signal is what clears it. *)
Theorem C9_getting_engine_reference env evs :
  throughout env enabled evs init = true ->
  throughout env getting_ready_before_stopping evs init = true ->
  let w := fst (exec env evs init) in
  (socksToRtc_ (conn w) = None -> getting_of w = GettingState.NONE)
  /\ (getting_of (fst (step env call_stopGet w)) = GettingState.NONE
      /\ socksToRtc_ (conn (fst (step env call_stopGet w))) = socksToRtc_ (conn w))
  /\ (forall e cause,
        getting_of (fst (step env (socksToRtc_failed e cause) w)) = GettingState.NONE
        /\ socksToRtc_ (conn (fst (step env (socksToRtc_failed e cause) w)))
           = socksToRtc_ (conn w))
  /\ (forall e,
        getting_of (fst (step env (socksToRtc_stopping e) w)) = GettingState.NONE
        /\ socksToRtc_ (conn (fst (step env (socksToRtc_stopping e) w))) = None).
Proof.
  intros Hen Hok w.
  destruct (getting_inv_exec env evs init getting_inv_init Hen Hok) as [_ Hnone].
  split; [exact Hnone |].
  assert (Hview : forall ev,
             getting_of (fst (step env ev w))
             = role_state (getting_step ev (getting_view w))
             /\ socksToRtc_ (conn (fst (step env ev w)))
                = role_engine (getting_step ev (getting_view w))).
  { intros ev. rewrite <- (step_getting_view env). split; reflexivity. }
  split; [| split].
  - destruct (Hview call_stopGet) as [-> ->].
    cbn [getting_step]. unfold stop_role.
    destruct (GettingState.eqb (role_state (getting_view w)) GettingState.NONE) eqn:E.
    + split; [| reflexivity].
      destruct (role_state (getting_view w)); [reflexivity | discriminate | discriminate].
    + split; reflexivity.
  - intros e cause. destruct (Hview (socksToRtc_failed e cause)) as [-> ->].
    split; reflexivity.
  - intros e. destruct (Hview (socksToRtc_stopping e)) as [-> ->].
    split; reflexivity.
Qed.

Lemma C9_getting_engine_reference_witness :
  let w := fst (exec example_env [call_startGet 5; call_stopGet] init) in
  (socksToRtc_ (conn w) = None -> getting_of w = GettingState.NONE)
  /\ (getting_of (fst (step example_env call_stopGet w)) = GettingState.NONE
      /\ socksToRtc_ (conn (fst (step example_env call_stopGet w)))
         = socksToRtc_ (conn w))
  /\ (forall e cause,
        getting_of (fst (step example_env (socksToRtc_failed e cause) w))
        = GettingState.NONE
        /\ socksToRtc_ (conn (fst (step example_env (socksToRtc_failed e cause) w)))
           = socksToRtc_ (conn w))
  /\ (forall e,
        getting_of (fst (step example_env (socksToRtc_stopping e) w))
        = GettingState.NONE
        /\ socksToRtc_ (conn (fst (step example_env (socksToRtc_stopping e) w)))
           = None).
Proof.
  apply (C9_getting_engine_reference example_env [call_startGet 5; call_stopGet]);
    vm_compute; reflexivity.
Defined.

(** ** The byte counters *)

Example stopping_to_get_erases_bytes_shared :
  let w := fst (exec example_env
                  [call_startShare 2; rtcToNet_ready 0%nat; call_startGet 5;
                   rtcToNet_bytesSentToPeer 0%nat 700;
                   socksToRtc_bytesReceivedFromPeer 0%nat 300;
                   socksToRtc_stopping 0%nat] init) in
  sharing_of w = SharingState.SHARING_ACCESS
  /\ bytesSent_ (conn w) = 0 /\ bytesReceived_ (conn w) = 0.
Proof. vm_compute. repeat split. Qed.

(** C10: both engines feed the same two counters (a byte-count event of
    the sharing engine and the same event of the getting engine leave the
    same session behind, with the count added), and the stop cleanup of
    either role sets both counters to zero, whatever the other role's
    state and engine, which it leaves as they are. *)
Theorem C10_counters_are_shared env w e e' n :
  (conn (fst (step env (rtcToNet_bytesReceivedFromPeer e n) w))
   = conn (fst (step env (socksToRtc_bytesReceivedFromPeer e' n) w))
   /\ bytesReceived_ (conn (fst (step env (rtcToNet_bytesReceivedFromPeer e n) w)))
      = bytesReceived_ (conn w) + n)
  /\ (conn (fst (step env (rtcToNet_bytesSentToPeer e n) w))
      = conn (fst (step env (socksToRtc_bytesSentToPeer e' n) w))
      /\ bytesSent_ (conn (fst (step env (rtcToNet_bytesSentToPeer e n) w)))
         = bytesSent_ (conn w) + n)
  /\ (let w' := fst (step env (rtcToNet_stopped e) w) in
      bytesSent_ (conn w') = 0 /\ bytesReceived_ (conn w') = 0
      /\ getting_of w' = getting_of w
      /\ socksToRtc_ (conn w') = socksToRtc_ (conn w))
  /\ (let w' := fst (step env (socksToRtc_stopping e') w) in
      bytesSent_ (conn w') = 0 /\ bytesReceived_ (conn w') = 0
      /\ sharing_of w' = sharing_of w
      /\ rtcToNet_ (conn w') = rtcToNet_ (conn w)).
Proof.
  split; [| split; [| split]].
  - open_world w. destruct up; split; reflexivity.
  - open_world w. destruct up; split; reflexivity.
  - repeat split.
  - repeat split.
Qed.

(** * More of the class *)

(** ** [startShare] and [stopShare] in closed form *)

Lemma startShare_throws remoteVersion w e :
  rtcToNet_ (conn w) = Some e ->
  startShare remoteVersion w
  = (Thrown (JSError "rtcToNet_ already exists"), w,
     [log error "rtcToNet_ already exists"]).
Proof. intros H. unfold startShare. rewrite bind_this, H. reflexivity. Qed.

Lemma startShare_returns remoteVersion w :
  rtcToNet_ (conn w) = None ->
  let e := length (rtcToNets w) in
  let pc := if remoteVersion <? 2 then PeerConnectionClass "rtctonet"
            else bridge_best "rtctonet" in
  let c := set_onceSharerCreated true
             (set_localSharingWithRemote SharingState.TRYING_TO_SHARE_ACCESS
                (set_sharingReset_ (Some (sharingReset e))
                   (set_rtcToNet_ (Some e) (conn w)))) in
  startShare remoteVersion w
  = (Returned (JS_promise (RtcToNet_onceReady e)),
     with_rtcToNets (fun l => l ++ [fresh_engine]) (with_conn (fun _ => c) w),
     [log debug (if remoteVersion <? 2
                 then "peer is running client version 1, using old peerconnection"
                 else "peer is running client version >1, using bridge");
      RtcToNet_start e pc;
      sendUpdate (STATE (getCurrentState c))]).
Proof.
  intros H. open_world w. subst. unfold startShare. js_run.
  destruct (remoteVersion <? 2); reflexivity.
Qed.

Lemma stopShare_stops w e :
  sharing_of w <> SharingState.NONE -> rtcToNet_ (conn w) = Some e ->
  stopShare w
  = (Returned (match sharingReset_ (conn w) with
               | Some p => JS_promise p
               | None => JS_null
               end),
     with_rtcToNets (alter request_stop e)
       (with_conn (set_localSharingWithRemote SharingState.NONE) w),
     [sendUpdate (STATE (getCurrentState
                           (set_localSharingWithRemote SharingState.NONE (conn w))));
      RtcToNet_stop e]).
Proof.
  intros Hs He. open_world w. subst. unfold stopShare. js_run.
  destruct s; [contradiction | |]; destruct sr; reflexivity.
Qed.

Lemma stopShare_throws w :
  sharing_of w <> SharingState.NONE -> rtcToNet_ (conn w) = None ->
  stopShare w
  = (Thrown TypeError,
     with_conn (set_localSharingWithRemote SharingState.NONE) w,
     [sendUpdate (STATE (getCurrentState
                           (set_localSharingWithRemote SharingState.NONE (conn w))))]).
Proof.
  intros Hs He. open_world w. subst. unfold stopShare. js_run.
  destruct s; [contradiction | |]; reflexivity.
Qed.


Lemma stopGet_throws w :
  getting_of w <> GettingState.NONE -> socksToRtc_ (conn w) = None ->
  stopGet w
  = (Thrown TypeError,
     with_conn (set_localGettingFromRemote GettingState.NONE) w,
     [metrics_increment "stop";
      sendUpdate (STATE (getCurrentState
                           (set_localGettingFromRemote GettingState.NONE (conn w))))]).
Proof.
  intros Hs He. open_world w. subst. unfold stopGet. js_run.
  destruct g; [contradiction | |]; reflexivity.
Qed.

(** ** What each event does to the counters, the timer, the endpoint, the
    session id and the barrier *)

(** After [view_of_step]: evaluate, and decide whatever the method still
    branches on. *)
Ltac decide_branches :=
  unfold stopShare, stopGet, handleStatusUpdate_;
  try match goal with st : Status |- _ => destruct st end;
  js_run;
  repeat match goal with
    | m : PeerMessage |- _ => destruct m as [?ty [?sg ?pi]]; cbn [data type signals proxyingId]; js_run
    | |- context [match ?x with _ => _ end] => is_var x; destruct x
    | |- context [if ?x then _ else _] => destruct x
    end;
  try reflexivity.

Lemma step_counters env ev w :
  (bytesSent_ (conn (fst (step env ev w))), bytesReceived_ (conn (fst (step env ev w))))
  = match ev with
    | rtcToNet_stopped _ | socksToRtc_stopping _ => (0, 0)
    | _ => (bytesSent_ (conn w) + bytes_sent_of ev,
            bytesReceived_ (conn w) + bytes_received_of ev)
    end.
Proof.
  view_of_step; cbn [bytes_sent_of bytes_received_of]; rewrite ?Z.add_0_r;
    decide_branches.
Qed.

Lemma step_timer env ev w :
  (pendingTimeouts (fst (step env ev w)), isUpdatePending_ (conn (fst (step env ev w))))
  = if is_byte_count ev
    then ((if isUpdatePending_ (conn w) then pendingTimeouts w
           else S (pendingTimeouts w)), true)
    else match ev with
         | timeout => (Nat.pred (pendingTimeouts w), false)
         | _ => (pendingTimeouts w, isUpdatePending_ (conn w))
         end.
Proof. view_of_step; cbn [is_byte_count]; decide_branches. Qed.

Lemma step_activeEndpoint env ev w :
  activeEndpoint (conn (fst (step env ev w)))
  = match ev with
    | socksToRtc_ready _ endpoint => Some endpoint
    | socksToRtc_stopping _ => None
    | _ => activeEndpoint (conn w)
    end.
Proof. view_of_step; decide_branches. Qed.

Lemma step_barrier env ev w :
  onceSharerCreated (conn (fst (step env ev w)))
  = match ev with
    | call_resetSharerCreated => false
    | call_startShare _ =>
        match rtcToNet_ (conn w) with
        | None => true
        | Some _ => onceSharerCreated (conn w)
        end
    | _ => onceSharerCreated (conn w)
    end.
Proof. view_of_step; decide_branches. Qed.

Lemma step_proxyingId env ev w :
  proxyingId_ (conn (fst (step env ev w)))
  = match ev with
    | call_startGet _ =>
        match getting_of w, socksToRtc_ (conn w) with
        | GettingState.NONE, None => Some (startGet_id env w)
        | _, _ => proxyingId_ (conn w)
        end
    | call_handleSignal m =>
        match signals (data m) with
        | None => if truthy (proxyingId (data m)) then proxyingId (data m)
                  else proxyingId_ (conn w)
        | Some _ => proxyingId_ (conn w)
        end
    | _ => proxyingId_ (conn w)
    end.
Proof. view_of_step; decide_branches. Qed.

(** ** Whole steps *)





(** ** Invariants of runs *)

Lemma run_invariant env (I : World -> Prop) (p : World -> Event -> bool) :
  (forall w ev, I w -> enabled w ev = true -> p w ev = true ->
                I (fst (step env ev w))) ->
  forall evs w,
    I w -> throughout env enabled evs w = true -> throughout env p evs w = true ->
    I (fst (exec env evs w)).
Proof.
  intros Hstep. induction evs as [| ev evs IH]; intros w Hw Hen Hp; [exact Hw |].
  cbn [throughout] in Hen, Hp.
  apply andb_prop in Hen as [Hen Hens], Hp as [Hp Hps].
  specialize (IH _ (Hstep w ev Hw Hen Hp) Hens Hps). cbn [exec].
  destruct (step env ev w) as [w1 fx1]. cbn [fst] in IH.
  destruct (exec env evs w1) as [w2 fx2]. exact IH.
Qed.

Lemma throughout_true env evs w : throughout env (fun _ _ => true) evs w = true.
Proof. revert w. induction evs as [| ev evs IH]; intros w; cbn; auto. Qed.

Lemma sharing_inv_exec env evs :
  throughout env enabled evs init = true ->
  throughout env sharing_ready_before_stop evs init = true ->
  sharing_inv (sharing_view (fst (exec env evs init))).
Proof.
  apply (run_invariant env (fun w => sharing_inv (sharing_view w))).
  - intros w ev Hw Hen Hp. apply (sharing_inv_step env ev w Hw Hen Hp).
  - apply sharing_inv_init.
Qed.

(** *** One live engine per role *)

Lemma one_live_alter f ref l e :
  (forall st, stopFired (f st) = stopFired st) ->
  one_live_engine ref l -> one_live_engine ref (alter f e l).
Proof.
  intros Hf [H1 H2]. split.
  - apply others_stopped_alter; [| assumption]. intros st. rewrite Hf. auto.
  - intros e' He'. destruct (H2 e' He') as (st & Hl & Hs).
    destruct (decide (e = e')) as [<- | Hne].
    + exists (f st). split; [| rewrite Hf; assumption].
      rewrite list_lookup_alter_eq. apply fmap_Some. exists st. split; [assumption | reflexivity].
    + exists st. rewrite list_lookup_alter_ne by assumption. split; assumption.
Qed.

Lemma one_live_new l :
  one_live_engine None l -> one_live_engine (Some (length l)) (l ++ [fresh_engine]).
Proof.
  intros [H1 _]. split; [apply others_stopped_new; assumption |].
  intros e [= <-]. exists fresh_engine.
  rewrite list_lookup_middle by reflexivity. split; reflexivity.
Qed.

Lemma one_live_fire ref l e st :
  one_live_engine ref l -> l !! e = Some st -> stopFired st = false ->
  one_live_engine None (alter fire_stop e l).
Proof.
  intros [H1 _] Hl Hs. split; [| discriminate].
  eapply others_stopped_fire; [eassumption |]. right.
  eapply live_engine_is_current; eassumption.
Qed.

Lemma one_live_stop_role {S} (none : S) is_none (v : RoleView S) :
  one_live_engine (role_engine v) (role_engines v) ->
  one_live_engine (role_engine (stop_role none is_none v))
                  (role_engines (stop_role none is_none v)).
Proof.
  intros H. unfold stop_role. destruct (is_none (role_state v)); [assumption |].
  cbn. destruct (role_engine v); [apply one_live_alter; auto | assumption].
Qed.

Lemma one_live_sharing_step ev v :
  one_live_engine (role_engine v) (role_engines v) ->
  match ev with
  | rtcToNet_stopped e =>
      engine_can (fun st => negb (stopFired st)) (role_engines v) e = true
  | _ => True
  end ->
  one_live_engine (role_engine (sharing_step ev v)) (role_engines (sharing_step ev v)).
Proof.
  intros H. destruct ev; cbn [sharing_step]; try (intros _; assumption).
  - intros _. destruct (role_engine v) eqn:Er; [rewrite Er; assumption |].
    cbn. apply one_live_new. assumption.
  - intros _. apply one_live_stop_role. assumption.
  - intros _. cbn. apply one_live_alter; auto.
  - intros _. apply (one_live_stop_role _ _ (with_engines (alter settle_ready e) v)).
    cbn. apply one_live_alter; auto.
  - intros Hen. apply engine_can_Some in Hen as (st & Hl & Hs).
    apply negb_true_iff in Hs. cbn. eapply one_live_fire; eassumption.
Qed.

Lemma one_live_getting_step ev v :
  one_live_engine (role_engine v) (role_engines v) ->
  match ev with
  | socksToRtc_stopping e =>
      engine_can (fun st => negb (stopFired st)) (role_engines v) e = true
  | _ => True
  end ->
  one_live_engine (role_engine (getting_step ev v)) (role_engines (getting_step ev v)).
Proof.
  intros H. destruct ev; cbn [getting_step]; try (intros _; assumption).
  - intros _. destruct (role_state v); try assumption.
    destruct (role_engine v) eqn:Er; [rewrite Er; assumption |].
    cbn. apply one_live_new. assumption.
  - intros _. apply one_live_stop_role. assumption.
  - intros _. cbn. apply one_live_alter; auto.
  - intros _. cbn. apply one_live_alter; auto.
  - intros Hen. apply engine_can_Some in Hen as (st & Hl & Hs).
    apply negb_true_iff in Hs. cbn. eapply one_live_fire; eassumption.
Qed.

Lemma one_live_init : one_live_engine None [].
Proof.
  split; [| discriminate]. intros e st Hl. rewrite lookup_nil in Hl. discriminate.
Qed.

Lemma one_live_step env ev w :
  one_live_engine (rtcToNet_ (conn w)) (rtcToNets w)
  /\ one_live_engine (socksToRtc_ (conn w)) (socksToRtcs w) ->
  enabled w ev = true ->
  one_live_engine (rtcToNet_ (conn (fst (step env ev w)))) (rtcToNets (fst (step env ev w)))
  /\ one_live_engine (socksToRtc_ (conn (fst (step env ev w))))
                     (socksToRtcs (fst (step env ev w))).
Proof.
  intros [Hs Hg] Hen. split.
  - change (one_live_engine (role_engine (sharing_view (fst (step env ev w))))
                            (role_engines (sharing_view (fst (step env ev w))))).
    rewrite step_sharing_view. apply one_live_sharing_step; [exact Hs |].
    destruct ev; try exact I; exact Hen.
  - change (one_live_engine (role_engine (getting_view (fst (step env ev w))))
                            (role_engines (getting_view (fst (step env ev w))))).
    rewrite step_getting_view. apply one_live_getting_step; [exact Hg |].
    destruct ev; try exact I; exact Hen.
Qed.

(** *** The timer and the flag *)

Ltac split_pair H :=
  let H1 := fresh H "1" in
  let H2 := fresh H "2" in
  pose proof (f_equal fst H) as H1; pose proof (f_equal snd H) as H2;
  cbn [fst snd] in H1, H2; clear H.

Lemma timer_matches_flag_step env ev w :
  timer_matches_flag w -> enabled w ev = true ->
  timer_matches_flag (fst (step env ev w)).
Proof.
  unfold timer_matches_flag. intros H Hen.
  pose proof (step_timer env ev w) as Hst.
  destruct (is_byte_count ev) eqn:Hb.
  - split_pair Hst. rewrite Hst1, Hst2.
    destruct (isUpdatePending_ (conn w)); [assumption |].
    rewrite H. reflexivity.
  - destruct ev; try discriminate; split_pair Hst; rewrite Hst1, Hst2;
      try assumption.
    cbn [enabled] in Hen. destruct (isUpdatePending_ (conn w)).
    + rewrite H. reflexivity.
    + rewrite H in Hen. discriminate.
Qed.

(** *** The counters *)

Lemma exec_cons env ev evs w :
  fst (exec env (ev :: evs) w) = fst (exec env evs (fst (step env ev w))).
Proof.
  cbn [exec]. destruct (step env ev w) as [w1 fx1]. cbn [fst].
  destruct (exec env evs w1) as [w2 fx2]. reflexivity.
Qed.

Lemma counters_without_cleanup env evs : forall w,
  forallb (fun ev => negb (is_cleanup ev)) evs = true ->
  bytesSent_ (conn (fst (exec env evs w))) = bytesSent_ (conn w) + total bytes_sent_of evs
  /\ bytesReceived_ (conn (fst (exec env evs w)))
     = bytesReceived_ (conn w) + total bytes_received_of evs.
Proof.
  induction evs as [| ev evs IH]; intros w Hall.
  - cbn. lia.
  - cbn [forallb] in Hall. apply andb_prop in Hall as [Hev Hall].
    rewrite exec_cons. destruct (IH (fst (step env ev w)) Hall) as [-> ->].
    pose proof (step_counters env ev w) as Hst.
    change (total bytes_sent_of (ev :: evs))
      with (bytes_sent_of ev + total bytes_sent_of evs).
    change (total bytes_received_of (ev :: evs))
      with (bytes_received_of ev + total bytes_received_of evs).
    destruct ev; try discriminate; split_pair Hst; rewrite Hst1, Hst2; lia.
Qed.

Lemma total_nonnegative (f : Event -> Z) evs :
  (forall ev, In ev evs -> 0 <= f ev) -> 0 <= total f evs.
Proof.
  induction evs as [| ev evs IH]; intros H; [cbn; lia |].
  change (total f (ev :: evs)) with (f ev + total f evs).
  pose proof (H ev (or_introl eq_refl)).
  specialize (IH (fun ev' Hin => H ev' (or_intror Hin))). lia.
Qed.

Lemma counters_nonnegative_step env ev w :
  nonnegative_bytes ev = true ->
  0 <= bytesSent_ (conn w) /\ 0 <= bytesReceived_ (conn w) ->
  0 <= bytesSent_ (conn (fst (step env ev w)))
  /\ 0 <= bytesReceived_ (conn (fst (step env ev w))).
Proof.
  unfold nonnegative_bytes. intros Hn [Hs Hr].
  apply andb_prop in Hn as [Hns Hnr]. apply Z.leb_le in Hns, Hnr.
  pose proof (step_counters env ev w) as Hst.
  destruct ev; split_pair Hst; rewrite Hst1, Hst2;
    cbn [bytes_sent_of bytes_received_of] in *; lia.
Qed.

(** *** The barrier and the sharing engines *)

Lemma sharing_engines_step env ev w :
  (length (rtcToNets w) <= length (rtcToNets (fst (step env ev w))))%nat
  /\ (onceSharerCreated (conn w) = false ->
      onceSharerCreated (conn (fst (step env ev w))) = true ->
      (length (rtcToNets w) < length (rtcToNets (fst (step env ev w))))%nat).
Proof.
  change (rtcToNets (fst (step env ev w)))
    with (role_engines (sharing_view (fst (step env ev w)))).
  rewrite step_sharing_view, step_barrier.
  change (role_engines (sharing_view w)) with (rtcToNets w).
  destruct ev; cbn [sharing_step sharing_view role_engines role_engine];
    unfold stop_role, with_engines; cbn [role_engines role_engine role_state];
    repeat match goal with
      | |- context [match ?x with _ => _ end] => destruct x
      | |- context [if ?x then _ else _] => destruct x
      end;
    unfold sharing_view; cbn [role_engines role_engine role_state];
    rewrite ?length_alter, ?length_app; cbn [length];
    (split; [lia | intros; first [congruence | lia]]).
Qed.

Lemma sharing_engines_exec env evs : forall w,
  (length (rtcToNets w) <= length (rtcToNets (fst (exec env evs w))))%nat.
Proof.
  induction evs as [| ev evs IH]; intros w; [cbn; lia |].
  rewrite exec_cons. specialize (IH (fst (step env ev w))).
  pose proof (proj1 (sharing_engines_step env ev w)). lia.
Qed.

(** *** The endpoint *)

Lemma endpoint_inv_init : endpoint_inv init.
Proof.
  split; [apply getting_inv_init |]. split; [reflexivity |]. discriminate.
Qed.

Lemma endpoint_inv_step env ev w :
  endpoint_inv w ->
  enabled w ev = true -> getting_ready_before_stopping w ev = true ->
  endpoint_inv (fst (step env ev w)).
Proof.
  intros (Hg & H2 & H3) Hen Hok.
  split; [apply getting_inv_step; assumption |].
  assert (Hr : socksToRtc_ (conn (fst (step env ev w)))
               = role_engine (getting_step ev (getting_view w)))
    by (rewrite <- (step_getting_view env); reflexivity).
  assert (Hl : socksToRtcs (fst (step env ev w))
               = role_engines (getting_step ev (getting_view w)))
    by (rewrite <- (step_getting_view env); reflexivity).
  rewrite Hr, Hl, step_activeEndpoint. clear Hr Hl.
  destruct Hg as [Hothers _].
  unfold getting_view in *. cbn [role_engine role_engines role_state] in *.
  destruct ev; cbn [getting_step role_engine role_engines role_state];
    try (split; assumption).
  - (* startGet *)
    destruct (getting_of w); try (split; assumption).
    destruct (socksToRtc_ (conn w)) eqn:Er; [split; assumption |].
    cbn. split; intros; apply H2; reflexivity.
  - (* stopGet *)
    unfold stop_role. cbn [role_engine role_engines role_state].
    destruct (GettingState.eqb (getting_of w) GettingState.NONE); [split; assumption |].
    cbn. split; [assumption |]. intros e st He Hl Hs.
    rewrite He in Hl. rewrite list_lookup_alter_eq in Hl.
    apply fmap_Some in Hl as (st0 & Hl & ->). eapply H3; eauto.
  - (* the start succeeded *)
    cbn [getting_ready_before_stopping] in Hok.
    apply engine_can_Some in Hok as (st & Hl & Hs). apply negb_true_iff in Hs.
    pose proof (live_engine_is_current _ _ _ _ Hothers Hl Hs) as Href.
    split.
    + rewrite Href. discriminate.
    + intros e' st' He' Hl' Hs'. rewrite Href in He'. injection He' as <-.
      rewrite list_lookup_alter_eq in Hl'.
      apply fmap_Some in Hl' as (st0 & _ & ->). discriminate.
  - (* the start failed *)
    split; [assumption |]. intros e' st' He' Hl' Hs'.
    destruct (decide (e = e')) as [<- | Hne].
    + rewrite list_lookup_alter_eq in Hl'.
      apply fmap_Some in Hl' as (st0 & _ & ->). discriminate.
    + rewrite list_lookup_alter_ne in Hl' by assumption. eapply H3; eauto.
  - (* the engine is stopping *)
    split; reflexivity.
Qed.

(** *** Which methods and callbacks throw *)

Lemma throws_startGet env remoteVersion w :
  throws env (call_startGet remoteVersion) w = misuse (call_startGet remoteVersion) w.
Proof.
  unfold throws, misuse. cbn [react deliver]. unfold bind at 1.
  destruct (getting_of w) eqn:Hg; cbn [GettingState.eqb negb orb].
  - destruct (socksToRtc_ (conn w)) eqn:Hs.
    + destruct (startGet_throws env remoteVersion w) as [m ->];
        [right; congruence | reflexivity].
    + rewrite startGet_returns by assumption. reflexivity.
  - destruct (startGet_throws env remoteVersion w) as [m ->];
      [left; congruence | reflexivity].
  - destruct (startGet_throws env remoteVersion w) as [m ->];
      [left; congruence | reflexivity].
Qed.

Lemma throws_when env ev w :
  throws env ev w
  = match ev with
    | call_stopShare | rtcToNet_failed _ _ =>
        negb (SharingState.eqb (sharing_of w) SharingState.NONE)
        && match rtcToNet_ (conn w) with Some _ => false | None => true end
    | call_stopGet =>
        negb (GettingState.eqb (getting_of w) GettingState.NONE)
        && match socksToRtc_ (conn w) with Some _ => false | None => true end
    | _ => misuse ev w
    end.
Proof.
  destruct ev; try apply throws_startGet;
    unfold throws, misuse; open_world w;
    unfold react, deliver, startShare, rtcToNet_onceReady_catch,
      stopShare, stopGet, handleSignal, forwardSignal_, handleMetadataSignal_,
      handleBytesReceived_, handleBytesSent_, delayedUpdate_,
      handleStatusUpdate_, rtcToNet_onceStopped_then, rtcToNet_onceReady_then,
      socksToRtc_onceStopping_then, socksToRtc_start_then,
      socksToRtc_start_catch, delayedUpdate_timeout;
    try match goal with st : Status |- _ => destruct st end;
    js_run;
    repeat match goal with
      | m : PeerMessage |- _ =>
          destruct m as [?ty [?sg ?pi]]; cbn [data type signals proxyingId]; js_run
      | |- context [match ?x with _ => _ end] => is_var x; destruct x
      | |- context [if ?x then _ else _] => destruct x
      end;
    reflexivity.
Qed.

(** *** The getting role and [stop()] *)

Lemma engine_can_weaken (p q : EngineStatus -> bool) l e :
  (forall st, p st = true -> q st = true) ->
  engine_can p l e = true -> engine_can q l e = true.
Proof.
  unfold engine_can. intros H. destruct (l !! e); [apply H | discriminate].
Qed.

Lemma throughout_weaken env (p q : World -> Event -> bool) evs :
  (forall w ev, p w ev = true -> q w ev = true) ->
  forall w, throughout env p evs w = true -> throughout env q evs w = true.
Proof.
  intros H. induction evs as [| ev evs IH]; intros w Hp; [reflexivity |].
  cbn [throughout] in *. apply andb_prop in Hp as [Hp Hps].
  rewrite (H _ _ Hp), (IH _ Hps). reflexivity.
Qed.

Lemma getting_ready_before_stop_stopping w ev :
  getting_ready_before_stop w ev = true ->
  getting_ready_before_stopping w ev = true.
Proof.
  destruct ev; try (intros; reflexivity). cbn.
  apply engine_can_weaken. intros st H. apply andb_prop in H as [_ H]. exact H.
Qed.


Lemma stop_asked_inv_init : stop_asked_inv (getting_view init).
Proof.
  split; [apply getting_inv_init |]. split; [apply one_live_init |]. discriminate.
Qed.

Lemma stop_asked_machine_step ev v :
  stop_asked_inv v ->
  match ev with
  | socksToRtc_ready e _ =>
      engine_can (fun st => negb (stopRequested st) && negb (stopFired st))
                 (role_engines v) e = true
  | socksToRtc_stopping e =>
      engine_can (fun st => negb (stopFired st)) (role_engines v) e = true
  | _ => True
  end ->
  stop_asked_inv (getting_step ev v).
Proof.
  intros (Hg & Hl & Hj) Hc.
  split; [| split].
  - apply getting_step_ok; [assumption |].
    destruct ev; try exact I; [| exact Hc].
    revert Hc. apply engine_can_weaken. intros st H.
    apply andb_prop in H as [_ H]. exact H.
  - apply one_live_getting_step; [assumption |].
    destruct ev; try exact I. exact Hc.
  - destruct ev; cbn [getting_step]; try exact Hj.
    + (* startGet *)
      clear Hg Hl.
      destruct (role_state v) eqn:Es, (role_engine v) eqn:Er;
        try (cbn; rewrite ?Es, ?Er in *; exact Hj).
      cbn. intros e0 st [= <-] Hlk Hq.
      rewrite list_lookup_middle in Hlk by reflexivity.
      injection Hlk as <-. discriminate.
    + (* stopGet *)
      unfold stop_role.
      destruct (GettingState.eqb (role_state v) GettingState.NONE); [exact Hj |].
      cbn. reflexivity.
    + (* the start succeeded *)
      apply engine_can_Some in Hc as (st & Hlk & Hp).
      apply andb_prop in Hp as [Hq Hf]. apply negb_true_iff in Hq, Hf.
      destruct Hl as [Hothers _].
      pose proof (live_engine_is_current _ _ _ _ Hothers Hlk Hf) as Href.
      cbn. intros e' st' He' Hlk' Hq'. rewrite Href in He'.
      injection He' as He'. subst e'.
      rewrite list_lookup_alter_eq in Hlk'.
      apply fmap_Some in Hlk' as (st0 & E & ->).
      pose proof (eq_trans (eq_sym Hlk) E) as Hst. injection Hst as <-.
      cbn in Hq'. congruence.
    + (* the start failed *)
      cbn. reflexivity.
    + (* the engine is stopping *)
      cbn. discriminate.
Qed.

Lemma stop_asked_inv_step env ev w :
  stop_asked_inv (getting_view w) ->
  enabled w ev = true -> getting_ready_before_stop w ev = true ->
  stop_asked_inv (getting_view (fst (step env ev w))).
Proof.
  intros Hinv Hen Hok. rewrite step_getting_view.
  apply (stop_asked_machine_step ev (getting_view w) Hinv).
  destruct ev; try exact I; assumption.
Qed.

Lemma stop_asked_inv_exec env evs :
  throughout env enabled evs init = true ->
  throughout env getting_ready_before_stop evs init = true ->
  stop_asked_inv (getting_view (fst (exec env evs init))).
Proof.
  apply (run_invariant env (fun w => stop_asked_inv (getting_view w))).
  - intros w ev Hw Hen Hp. apply stop_asked_inv_step; assumption.
  - apply stop_asked_inv_init.
Qed.



(** * More properties *)

(** ** Starting and stopping to share *)

(** X1: [startShare] called while a sharing engine exists throws
    [Error('rtcToNet_ already exists')] to its caller and changes nothing:
    the world is the same and the only output is the error log. *)
Theorem X1_startShare_fault_leaves_session remoteVersion w e :
  rtcToNet_ (conn w) = Some e ->
  startShare remoteVersion w
  = (Thrown (JSError "rtcToNet_ already exists"), w,
     [log error "rtcToNet_ already exists"]).
Proof. apply startShare_throws. Qed.

Lemma X1_startShare_fault_witness :
  startShare 2 (fst (step example_env (call_startShare 2) init))
  = (Thrown (JSError "rtcToNet_ already exists"),
     fst (step example_env (call_startShare 2) init),
     [log error "rtcToNet_ already exists"]).
Proof.
  apply (X1_startShare_fault_leaves_session 2 _ 0%nat). reflexivity.
Defined.

(** X2: without a sharing engine, [startShare] makes a new engine and
    returns its [onceReady]; the engine is started on the old peer
    connection when the remote version is below 2 and on [bridge.best]
    otherwise; the state is TRYING_TO_SHARE_ACCESS, the one STATE update
    sent shows the session as the call leaves it, the barrier
    [onceSharerCreated] is fulfilled, and the getting role is untouched. *)
Theorem X2_startShare_starts_engine remoteVersion w :
  rtcToNet_ (conn w) = None ->
  let e := length (rtcToNets w) in
  exists w' fx,
    startShare remoteVersion w = (Returned (JS_promise (RtcToNet_onceReady e)), w', fx)
    /\ sharing_started_with fx
       = [(e, if remoteVersion <? 2 then PeerConnectionClass "rtctonet"
              else bridge_best "rtctonet")]
    /\ updates_sent fx = [STATE (getCurrentState (conn w'))]
    /\ sharing_of w' = SharingState.TRYING_TO_SHARE_ACCESS
    /\ rtcToNet_ (conn w') = Some e
    /\ rtcToNets w' = rtcToNets w ++ [fresh_engine]
    /\ onceSharerCreated (conn w') = true
    /\ getting_view w' = getting_view w.
Proof.
  intros H e. rewrite (startShare_returns remoteVersion w H). do 2 eexists.
  split; [reflexivity |]. repeat split.
Qed.

Lemma X2_startShare_starts_engine_witness :
  exists w' fx,
    startShare 1 init = (Returned (JS_promise (RtcToNet_onceReady 0%nat)), w', fx)
    /\ sharing_started_with fx
       = [(0%nat, if 1 <? 2 then PeerConnectionClass "rtctonet"
                  else bridge_best "rtctonet")]
    /\ updates_sent fx = [STATE (getCurrentState (conn w'))]
    /\ sharing_of w' = SharingState.TRYING_TO_SHARE_ACCESS
    /\ rtcToNet_ (conn w') = Some 0%nat
    /\ rtcToNets w' = rtcToNets init ++ [fresh_engine]
    /\ onceSharerCreated (conn w') = true
    /\ getting_view w' = getting_view init.
Proof. apply (X2_startShare_starts_engine 1 init). reflexivity. Defined.

(** X3: [stopShare] right after a [startShare] that made engine [e] sets
    the state to NONE, sends one STATE update, calls [e.stop()], keeps the
    reference, and returns the promise [sharingReset_] of [e]; that
    promise is the one the reaction on [e.onceStopped] fulfils, after it
    has sent STOP_GIVING and a STATE update, cleared the reference and
    set both counters to zero. *)
Theorem X3_stopShare_returns_cleanup_of_engine env remoteVersion w :
  rtcToNet_ (conn w) = None ->
  let e := length (rtcToNets w) in
  let w1 := snd (fst (startShare remoteVersion w)) in
  exists w2 fx2,
    stopShare w1 = (Returned (JS_promise (sharingReset e)), w2, fx2)
    /\ fx2 = [sendUpdate (STATE (getCurrentState (conn w2))); RtcToNet_stop e]
    /\ sharing_of w2 = SharingState.NONE
    /\ rtcToNet_ (conn w2) = Some e
    /\ enabled w2 (rtcToNet_stopped e) = true
    /\ let w3 := fst (step env (rtcToNet_stopped e) w2) in
       let fx3 := snd (step env (rtcToNet_stopped e) w2) in
       settlements fx3 = [(sharingReset e, fulfilled_void)]
       /\ updates_sent fx3 = [STOP_GIVING; STATE (getCurrentState (conn w3))]
       /\ rtcToNet_ (conn w3) = None
       /\ bytesSent_ (conn w3) = 0 /\ bytesReceived_ (conn w3) = 0.
Proof.
  intros H e w1. subst w1. rewrite (startShare_returns remoteVersion w H).
  cbn [fst snd]. fold e.
  erewrite stopShare_stops; [| discriminate | reflexivity].
  do 2 eexists. split; [reflexivity |]. split; [reflexivity |].
  split; [reflexivity |]. split; [reflexivity |]. split.
  - cbn [enabled]. unfold engine_can. cbn [rtcToNets with_rtcToNets with_conn].
    rewrite list_lookup_alter_eq. subst e.
    rewrite list_lookup_middle by reflexivity. reflexivity.
  - repeat split.
Qed.

Lemma X3_stopShare_returns_cleanup_witness :
  exists w2 fx2,
    stopShare (snd (fst (startShare 2 init)))
    = (Returned (JS_promise (sharingReset 0%nat)), w2, fx2)
    /\ fx2 = [sendUpdate (STATE (getCurrentState (conn w2))); RtcToNet_stop 0%nat]
    /\ sharing_of w2 = SharingState.NONE
    /\ rtcToNet_ (conn w2) = Some 0%nat
    /\ enabled w2 (rtcToNet_stopped 0%nat) = true
    /\ let w3 := fst (step example_env (rtcToNet_stopped 0%nat) w2) in
       let fx3 := snd (step example_env (rtcToNet_stopped 0%nat) w2) in
       settlements fx3 = [(sharingReset 0%nat, fulfilled_void)]
       /\ updates_sent fx3 = [STOP_GIVING; STATE (getCurrentState (conn w3))]
       /\ rtcToNet_ (conn w3) = None
       /\ bytesSent_ (conn w3) = 0 /\ bytesReceived_ (conn w3) = 0.
Proof.
  apply (X3_stopShare_returns_cleanup_of_engine example_env 2 init). reflexivity.
Defined.

(** X4: [stopShare] (and [stopGet]) called while the state is not NONE
    and the engine reference is null first sets the state to NONE and
    sends the STATE update, which shows NONE, and only then throws the
    TypeError of the call through the null reference; the state stays
    NONE and nothing else of the session changes. *)
Theorem X4_stop_through_null_reference ws wg :
  sharing_of ws <> SharingState.NONE -> rtcToNet_ (conn ws) = None ->
  getting_of wg <> GettingState.NONE -> socksToRtc_ (conn wg) = None ->
  (exists w' s,
      stopShare ws = (Thrown TypeError, w', [sendUpdate (STATE s)])
      /\ sharing_of w' = SharingState.NONE
      /\ localSharingWithRemote s = SharingState.NONE
      /\ s = getCurrentState (conn w')
      /\ rtcToNet_ (conn w') = None
      /\ rtcToNets w' = rtcToNets ws
      /\ getting_view w' = getting_view ws)
  /\ (exists w' s,
        stopGet wg
        = (Thrown TypeError, w', [metrics_increment "stop"; sendUpdate (STATE s)])
        /\ getting_of w' = GettingState.NONE
        /\ localGettingFromRemote s = GettingState.NONE
        /\ s = getCurrentState (conn w')
        /\ socksToRtc_ (conn w') = None
        /\ socksToRtcs w' = socksToRtcs wg
        /\ sharing_view w' = sharing_view wg).
Proof.
  intros Hs Hr Hg Hso. split.
  - rewrite (stopShare_throws ws Hs Hr). do 2 eexists.
    split; [reflexivity |]. cbn. rewrite Hr. repeat split.
  - rewrite (stopGet_throws wg Hg Hso). do 2 eexists.
    split; [reflexivity |]. cbn. rewrite Hso. repeat split.
Qed.

(** Such states are reached when an engine reports success after it has
    stopped. *)
Lemma X4_stop_through_null_reference_witness :
  let ws := fst (exec example_env
                   [call_startShare 2; rtcToNet_stopped 0%nat; rtcToNet_ready 0%nat]
                   init) in
  let wg := fst (exec example_env
                   [call_startGet 5; socksToRtc_stopping 0%nat;
                    socksToRtc_ready 0%nat example_endpoint]
                   init) in
  (exists w' s,
      stopShare ws = (Thrown TypeError, w', [sendUpdate (STATE s)])
      /\ sharing_of w' = SharingState.NONE
      /\ localSharingWithRemote s = SharingState.NONE
      /\ s = getCurrentState (conn w')
      /\ rtcToNet_ (conn w') = None
      /\ rtcToNets w' = rtcToNets ws
      /\ getting_view w' = getting_view ws)
  /\ (exists w' s,
        stopGet wg
        = (Thrown TypeError, w', [metrics_increment "stop"; sendUpdate (STATE s)])
        /\ getting_of w' = GettingState.NONE
        /\ localGettingFromRemote s = GettingState.NONE
        /\ s = getCurrentState (conn w')
        /\ socksToRtc_ (conn w') = None
        /\ socksToRtcs w' = socksToRtcs wg
        /\ sharing_view w' = sharing_view wg).
Proof.
  apply X4_stop_through_null_reference;
    vm_compute; first [reflexivity | discriminate].
Defined.

(** X5: in every state reached by a run in which engines report success
    only before they are stopped, a method or callback throws exactly when
    the owner calls [startShare] with a sharing engine in place, or
    [startGet] while getting or with a getting engine in place; no
    reaction of the environment, no stop and no [handleSignal] throws. *)
Theorem X5_only_misuse_throws env evs ev :
  throughout env enabled evs init = true ->
  throughout env sharing_ready_before_stop evs init = true ->
  throughout env getting_ready_before_stopping evs init = true ->
  throws env ev (fst (exec env evs init)) = misuse ev (fst (exec env evs init)).
Proof.
  intros Hen Hs Hg.
  destruct (sharing_inv_exec env evs Hen Hs) as (_ & Hsn & _).
  destruct (getting_inv_exec env evs init getting_inv_init Hen Hg) as (_ & Hgn).
  cbn [sharing_view getting_view role_state role_engine] in Hsn, Hgn.
  rewrite throws_when.
  destruct ev; try reflexivity; cbn [misuse].
  - destruct (rtcToNet_ (conn _)); [apply andb_false_r |].
    rewrite Hsn by reflexivity. reflexivity.
  - destruct (socksToRtc_ (conn _)); [apply andb_false_r |].
    rewrite Hgn by reflexivity. reflexivity.
  - destruct (rtcToNet_ (conn _)); [apply andb_false_r |].
    rewrite Hsn by reflexivity. reflexivity.
Qed.

Lemma X5_only_misuse_throws_witness :
  throws example_env call_stopShare
    (fst (exec example_env
            [call_startShare 2; call_startGet 5; call_stopShare;
             rtcToNet_stopped 0%nat] init))
  = misuse call_stopShare
      (fst (exec example_env
              [call_startShare 2; call_startGet 5; call_stopShare;
               rtcToNet_stopped 0%nat] init)).
Proof.
  apply (X5_only_misuse_throws example_env); vm_compute; reflexivity.
Defined.

(** ** Invariants of every run *)

Lemma one_live_exec env evs :
  throughout env enabled evs init = true ->
  one_live_engine (rtcToNet_ (conn (fst (exec env evs init))))
                  (rtcToNets (fst (exec env evs init)))
  /\ one_live_engine (socksToRtc_ (conn (fst (exec env evs init))))
                     (socksToRtcs (fst (exec env evs init))).
Proof.
  intros Hen.
  apply (run_invariant env
           (fun w => one_live_engine (rtcToNet_ (conn w)) (rtcToNets w)
                     /\ one_live_engine (socksToRtc_ (conn w)) (socksToRtcs w))
           (fun _ _ => true)).
  - intros w ev Hw He _. apply one_live_step; assumption.
  - split; apply one_live_init.
  - assumption.
  - apply throughout_true.
Qed.

(** X6: whatever the engines signal, each role has at most one live
    engine and the reference names it: every engine other than the one
    referred to has fired its stopped (stopping) promise, and the one
    referred to exists and has not. *)
Theorem X6_one_live_engine_per_role env evs :
  throughout env enabled evs init = true ->
  let w := fst (exec env evs init) in
  one_live_engine (rtcToNet_ (conn w)) (rtcToNets w)
  /\ one_live_engine (socksToRtc_ (conn w)) (socksToRtcs w).
Proof. apply one_live_exec. Qed.

Lemma X6_one_live_engine_witness :
  let w := fst (exec example_env
                  [call_startShare 2; rtcToNet_stopped 0%nat; rtcToNet_ready 0%nat;
                   call_startShare 2; call_startGet 5; call_stopGet] init) in
  one_live_engine (rtcToNet_ (conn w)) (rtcToNets w)
  /\ one_live_engine (socksToRtc_ (conn w)) (socksToRtcs w).
Proof.
  apply (X6_one_live_engine_per_role example_env). vm_compute. reflexivity.
Defined.

(** X7: the flag [isUpdatePending_] is set exactly while a refresh timer
    is set, and there is never more than one timer: the number of timers
    not yet fired is 1 when the flag is set and 0 when it is not. *)
Theorem X7_one_timer_while_pending env evs :
  throughout env enabled evs init = true ->
  timer_matches_flag (fst (exec env evs init)).
Proof.
  intros Hen.
  apply (run_invariant env timer_matches_flag (fun _ _ => true)).
  - intros w ev Hw He _. apply timer_matches_flag_step; assumption.
  - reflexivity.
  - assumption.
  - apply throughout_true.
Qed.

Lemma X7_one_timer_while_pending_witness :
  timer_matches_flag
    (fst (exec example_env
            [call_startGet 5; socksToRtc_bytesSentToPeer 0%nat 10;
             socksToRtc_bytesReceivedFromPeer 0%nat 20; timeout;
             socksToRtc_bytesSentToPeer 0%nat 30] init)).
Proof.
  apply (X7_one_timer_while_pending example_env). vm_compute. reflexivity.
Defined.

(** X8: take a run without a stop cleanup, from a state with counters
    that are not negative, in which no engine reports a negative count
    and the sums stay within 2^53 (where the additions of the code are
    exact).  Then each counter ends at its start value plus the sum of the
    counts reported in that direction, whichever engine reported them and
    whatever else happened in between, and all the way both counters
    stay between 0 and 2^53. *)
Theorem X8_counters_add_up env evs w :
  forallb (fun ev => negb (is_cleanup ev)) evs = true ->
  forallb nonnegative_bytes evs = true ->
  0 <= bytesSent_ (conn w) -> 0 <= bytesReceived_ (conn w) ->
  bytesSent_ (conn w) + total bytes_sent_of evs <= 2 ^ 53 ->
  bytesReceived_ (conn w) + total bytes_received_of evs <= 2 ^ 53 ->
  bytesSent_ (conn (fst (exec env evs w)))
  = bytesSent_ (conn w) + total bytes_sent_of evs
  /\ bytesReceived_ (conn (fst (exec env evs w)))
     = bytesReceived_ (conn w) + total bytes_received_of evs
  /\ Forall (fun w' => safe_count (bytesSent_ (conn w'))
                       /\ safe_count (bytesReceived_ (conn w')))
            (visited env evs w).
Proof.
  intros Hnc Hnn Hs Hr Hsb Hrb.
  destruct (counters_without_cleanup env evs w Hnc) as [Hsum1 Hsum2].
  split; [exact Hsum1 |]. split; [exact Hsum2 |].
  clear Hsum1 Hsum2. revert w Hs Hr Hsb Hrb.
  induction evs as [| ev evs IH]; intros w Hs Hr Hsb Hrb.
  - cbn in *. constructor; [| constructor]. unfold safe_count. lia.
  - cbn [forallb] in Hnc, Hnn.
    apply andb_prop in Hnc as [Hc Hnc], Hnn as [Hn Hnn].
    change (total bytes_sent_of (ev :: evs))
      with (bytes_sent_of ev + total bytes_sent_of evs) in Hsb.
    change (total bytes_received_of (ev :: evs))
      with (bytes_received_of ev + total bytes_received_of evs) in Hrb.
    pose proof (total_nonnegative bytes_sent_of evs) as Hts.
    pose proof (total_nonnegative bytes_received_of evs) as Htr.
    unfold nonnegative_bytes in Hn. apply andb_prop in Hn as [Hn1 Hn2].
    apply Z.leb_le in Hn1, Hn2.
    specialize (Hts ltac:(intros ev' Hin; rewrite forallb_forall in Hnn;
                          specialize (Hnn ev' Hin); unfold nonnegative_bytes in Hnn;
                          apply andb_prop in Hnn as [Hx _]; apply Z.leb_le in Hx; exact Hx)).
    specialize (Htr ltac:(intros ev' Hin; rewrite forallb_forall in Hnn;
                          specialize (Hnn ev' Hin); unfold nonnegative_bytes in Hnn;
                          apply andb_prop in Hnn as [_ Hx]; apply Z.leb_le in Hx; exact Hx)).
    cbn [visited]. constructor; [unfold safe_count; lia |].
    pose proof (step_counters env ev w) as Hst.
    assert (Hnow : bytesSent_ (conn (fst (step env ev w)))
                   = bytesSent_ (conn w) + bytes_sent_of ev
                   /\ bytesReceived_ (conn (fst (step env ev w)))
                      = bytesReceived_ (conn w) + bytes_received_of ev).
    { destruct ev; try discriminate; split_pair Hst; split; assumption. }
    destruct Hnow as [Hs1 Hr1].
    apply (IH Hnc Hnn); lia.
Qed.

Lemma X8_counters_add_up_witness :
  let evs := [call_startShare 2; call_startGet 5;
              rtcToNet_bytesSentToPeer 0%nat 700; call_stopGet;
              socksToRtc_bytesSentToPeer 0%nat 50;
              socksToRtc_bytesReceivedFromPeer 0%nat 300; timeout] in
  bytesSent_ (conn (fst (exec example_env evs init)))
  = bytesSent_ (conn init) + total bytes_sent_of evs
  /\ bytesReceived_ (conn (fst (exec example_env evs init)))
     = bytesReceived_ (conn init) + total bytes_received_of evs
  /\ Forall (fun w' => safe_count (bytesSent_ (conn w'))
                       /\ safe_count (bytesReceived_ (conn w')))
            (visited example_env evs init).
Proof.
  apply (X8_counters_add_up example_env);
    first [reflexivity | (vm_compute; discriminate)].
Defined.

(** X9: when no engine reports a negative byte count, neither counter is
    ever negative. *)
Theorem X9_counters_never_negative env evs :
  forallb nonnegative_bytes evs = true ->
  0 <= bytesSent_ (conn (fst (exec env evs init)))
  /\ 0 <= bytesReceived_ (conn (fst (exec env evs init))).
Proof.
  intros Hall.
  assert (H : forall w,
             0 <= bytesSent_ (conn w) /\ 0 <= bytesReceived_ (conn w) ->
             0 <= bytesSent_ (conn (fst (exec env evs w)))
             /\ 0 <= bytesReceived_ (conn (fst (exec env evs w)))).
  { induction evs as [| ev evs IH]; intros w Hw; [exact Hw |].
    cbn [forallb] in Hall. apply andb_prop in Hall as [Hev Hall].
    rewrite exec_cons. apply (IH Hall).
    apply counters_nonnegative_step; assumption. }
  apply H. cbn. lia.
Qed.

Lemma X9_counters_never_negative_witness :
  let evs := [call_startGet 5; socksToRtc_bytesSentToPeer 0%nat 50;
              socksToRtc_stopping 0%nat; call_startShare 2;
              rtcToNet_bytesReceivedFromPeer 0%nat 8] in
  0 <= bytesSent_ (conn (fst (exec example_env evs init)))
  /\ 0 <= bytesReceived_ (conn (fst (exec example_env evs init))).
Proof.
  apply (X9_counters_never_negative example_env). reflexivity.
Defined.

(** X10: a barrier [onceSharerCreated] that is pending is fulfilled only
    by a [startShare] that makes a new sharing engine: if it is pending
    in one state and fulfilled after a run from there, the run has made
    at least one sharing engine. *)
Theorem X10_barrier_needs_new_engine env evs w :
  onceSharerCreated (conn w) = false ->
  onceSharerCreated (conn (fst (exec env evs w))) = true ->
  (length (rtcToNets w) < length (rtcToNets (fst (exec env evs w))))%nat.
Proof.
  revert w. induction evs as [| ev evs IH]; intros w H0 H1.
  - cbn in H1. congruence.
  - rewrite exec_cons in *.
    destruct (sharing_engines_step env ev w) as [Hle Hlt].
    destruct (onceSharerCreated (conn (fst (step env ev w)))) eqn:Hb.
    + pose proof (sharing_engines_exec env evs (fst (step env ev w))).
      specialize (Hlt H0 eq_refl). lia.
    + specialize (IH _ Hb H1). lia.
Qed.

Lemma X10_barrier_needs_new_engine_witness :
  let w := fst (exec example_env
                  [call_startShare 2; call_resetSharerCreated] init) in
  let evs := [call_stopShare; rtcToNet_stopped 0%nat; call_startShare 2] in
  (length (rtcToNets w) < length (rtcToNets (fst (exec example_env evs w))))%nat.
Proof.
  apply (X10_barrier_needs_new_engine example_env); reflexivity.
Defined.

(** X11: in polite runs the sharing state is NONE whenever there is no
    sharing-engine reference, and it is not NONE while the engine
    referred to has not been asked to stop. *)
Theorem X11_sharing_state_and_reference env evs :
  throughout env enabled evs init = true ->
  throughout env sharing_ready_before_stop evs init = true ->
  let w := fst (exec env evs init) in
  (rtcToNet_ (conn w) = None -> sharing_of w = SharingState.NONE)
  /\ (forall e st,
        rtcToNet_ (conn w) = Some e -> rtcToNets w !! e = Some st ->
        stopRequested st = false -> sharing_of w <> SharingState.NONE).
Proof.
  intros Hen Hs w.
  destruct (sharing_inv_exec env evs Hen Hs) as (_ & H2 & H3).
  destruct (one_live_exec env evs Hen) as [[_ Hlive] _].
  split; [exact H2 |].
  intros e st He Hl Hq. apply (H3 e st He Hl Hq).
  destruct (Hlive e He) as (st' & Hl' & Hf).
  change (rtcToNets w !! e = Some st') in Hl'. congruence.
Qed.

Lemma X11_sharing_state_and_reference_witness :
  let w := fst (exec example_env
                  [call_startShare 2; rtcToNet_ready 0%nat; call_startGet 5] init) in
  (rtcToNet_ (conn w) = None -> sharing_of w = SharingState.NONE)
  /\ (forall e st,
        rtcToNet_ (conn w) = Some e -> rtcToNets w !! e = Some st ->
        stopRequested st = false -> sharing_of w <> SharingState.NONE).
Proof.
  apply (X11_sharing_state_and_reference example_env); vm_compute; reflexivity.
Defined.

(** ** The endpoint and the updates the owner sees *)

Lemma step_socksToRtc_ready env e endpoint w :
  step env (socksToRtc_ready e endpoint) w
  = (with_conn (fun c => set_activeEndpoint (Some endpoint)
                           (set_localGettingFromRemote GettingState.GETTING_ACCESS c))
       (with_socksToRtcs (alter settle_ready e) w),
     [log info "SOCKS proxy listening on %1";
      metrics_increment "success";
      sendUpdate (STATE (getCurrentState
                           (set_localGettingFromRemote GettingState.GETTING_ACCESS
                              (conn w))));
      settle (SocksToRtc_started e) (fulfilled_with endpoint)]).
Proof. reflexivity. Qed.

Lemma endpoint_inv_exec env evs :
  throughout env enabled evs init = true ->
  throughout env getting_ready_before_stopping evs init = true ->
  endpoint_inv (fst (exec env evs init)).
Proof.
  apply (run_invariant env endpoint_inv).
  - intros w ev Hw Hen Hp. apply endpoint_inv_step; assumption.
  - apply endpoint_inv_init.
Qed.

(** X12: in polite runs there is no active endpoint while there is no
    getting-engine reference; and when the start of an engine succeeds,
    the STATE update sent by that reaction already shows GETTING_ACCESS
    but still no endpoint, because the reaction records the endpoint
    after it has sent the update. *)
Theorem X12_endpoint_follows_the_update env evs0 evs e endpoint :
  throughout env enabled evs0 init = true ->
  throughout env getting_ready_before_stopping evs0 init = true ->
  socksToRtc_ (conn (fst (exec env evs0 init))) = None ->
  throughout env enabled evs init = true ->
  throughout env getting_ready_before_stopping evs init = true ->
  enabled (fst (exec env evs init)) (socksToRtc_ready e endpoint) = true ->
  getting_ready_before_stopping (fst (exec env evs init))
    (socksToRtc_ready e endpoint) = true ->
  let w := fst (exec env evs init) in
  let w' := fst (step env (socksToRtc_ready e endpoint) w) in
  let fx := snd (step env (socksToRtc_ready e endpoint) w) in
  activeEndpoint (conn (fst (exec env evs0 init))) = None
  /\ map localGettingFromRemote (STATE_updates fx) = [GettingState.GETTING_ACCESS]
  /\ map cs_activeEndpoint (STATE_updates fx) = [None]
  /\ activeEndpoint (conn w') = Some endpoint
  /\ settlements fx = [(SocksToRtc_started e, fulfilled_with endpoint)].
Proof.
  intros Hen0 Hg0 Hnone Hen Hg He Hp w w' fx.
  destruct (endpoint_inv_exec env evs0 Hen0 Hg0) as (_ & H20 & _).
  split; [exact (H20 Hnone) |].
  destruct (endpoint_inv_exec env evs Hen Hg) as ((Hothers & _) & H2 & H3).
  fold w in Hothers, H2, H3, He, Hp.
  subst w' fx. rewrite step_socksToRtc_ready. cbn [fst snd].
  cbn [enabled getting_ready_before_stopping] in He, Hp.
  apply engine_can_Some in He as (st & Hl & Hr), Hp as (st' & Hl' & Hs).
  rewrite Hl in Hl'. injection Hl' as <-.
  apply negb_true_iff in Hr, Hs.
  pose proof (live_engine_is_current _ _ _ _ Hothers Hl Hs) as Href.
  cbn [getting_view role_engine] in Href.
  rewrite <- (H3 e st Href Hl Hr). repeat split.
Qed.

Lemma X12_endpoint_follows_the_update_witness :
  let w0 := fst (exec example_env
                   [call_startGet 5; socksToRtc_ready 0%nat example_endpoint;
                    call_stopGet; socksToRtc_stopping 0%nat] init) in
  let w := fst (exec example_env [call_startShare 2; call_startGet 5] init) in
  let w' := fst (step example_env (socksToRtc_ready 0%nat example_endpoint) w) in
  let fx := snd (step example_env (socksToRtc_ready 0%nat example_endpoint) w) in
  activeEndpoint (conn w0) = None
  /\ map localGettingFromRemote (STATE_updates fx) = [GettingState.GETTING_ACCESS]
  /\ map cs_activeEndpoint (STATE_updates fx) = [None]
  /\ activeEndpoint (conn w') = Some example_endpoint
  /\ settlements fx = [(SocksToRtc_started 0%nat, fulfilled_with example_endpoint)].
Proof.
  apply (X12_endpoint_follows_the_update example_env
           [call_startGet 5; socksToRtc_ready 0%nat example_endpoint;
            call_stopGet; socksToRtc_stopping 0%nat]
           [call_startShare 2; call_startGet 5] 0%nat example_endpoint);
    vm_compute; reflexivity.
Defined.



(** The handler of the stopping signal reads the state, not whether
    [stop()] was called: an engine that reports a successful start after
    [stopGet] asked it to stop has its stop reported as an error. *)
Example stop_after_late_ready_is_reported_as_error :
  exists s,
    updates_sent
      (snd (step example_env (socksToRtc_stopping 0%nat)
              (fst (exec example_env
                      [call_startGet 5; call_stopGet;
                       socksToRtc_ready 0%nat example_endpoint] init))))
    = [STOP_GETTING true; STATE s].
Proof. eexists. reflexivity. Qed.

(** X14: in every run in which no getting engine reports a successful
    start after [stop()] was called on it or after it signalled stopping,
    the reaction on an engine's stopping signal flags STOP_GETTING as an
    error exactly when [stop()] had not been called on that engine and the
    state was GETTING_ACCESS: a stop that the owner asked for is never
    reported as an error, since the state is NONE from [stopGet] until the
    signal. *)
Theorem X14_stop_asked_for_is_no_error env evs e st :
  throughout env enabled evs init = true ->
  throughout env getting_ready_before_stop evs init = true ->
  let w := fst (exec env evs init) in
  enabled w (socksToRtc_stopping e) = true ->
  socksToRtcs w !! e = Some st ->
  exists s,
    updates_sent (snd (step env (socksToRtc_stopping e) w))
    = [STOP_GETTING (negb (stopRequested st)
                     && GettingState.eqb GettingState.GETTING_ACCESS (getting_of w));
       STATE s]
    /\ localGettingFromRemote s = GettingState.NONE
    /\ (stopRequested st = true -> getting_of w = GettingState.NONE).
Proof.
  intros Hen Hp w Hcan Hlk.
  pose proof (stop_asked_inv_exec env evs Hen Hp) as (Hg & [Hothers _] & Hj).
  assert (Hnone : stopRequested st = true -> getting_of w = GettingState.NONE).
  { intros Hq. apply engine_can_Some in Hcan as (st' & Hlk' & Hf).
    pose proof (eq_trans (eq_sym Hlk) Hlk') as Hst. injection Hst as <-.
    apply negb_true_iff in Hf.
    pose proof (live_engine_is_current _ _ _ _ Hothers Hlk Hf) as Href.
    exact (Hj e st Href Hlk Hq). }
  exists (getCurrentState
            (set_bytesReceived_ 0
               (set_bytesSent_ 0
                  (set_localGettingFromRemote GettingState.NONE (conn w))))).
  split; [| split; [reflexivity | exact Hnone]].
  change (updates_sent (snd (step env (socksToRtc_stopping e) w)))
    with [STOP_GETTING (GettingState.eqb GettingState.GETTING_ACCESS (getting_of w));
          STATE (getCurrentState
                   (set_bytesReceived_ 0
                      (set_bytesSent_ 0
                         (set_localGettingFromRemote GettingState.NONE (conn w)))))].
  destruct (stopRequested st) eqn:Hq; [| reflexivity].
  rewrite (Hnone eq_refl). reflexivity.
Qed.

Lemma X14_stop_asked_for_witness :
  let w := fst (exec example_env
                  [call_startGet 5; socksToRtc_ready 0%nat example_endpoint;
                   call_stopGet] init) in
  exists s,
    updates_sent (snd (step example_env (socksToRtc_stopping 0%nat) w))
    = [STOP_GETTING
         (negb (stopRequested (request_stop (settle_ready fresh_engine)))
          && GettingState.eqb GettingState.GETTING_ACCESS (getting_of w));
       STATE s]
    /\ localGettingFromRemote s = GettingState.NONE
    /\ (stopRequested (request_stop (settle_ready fresh_engine)) = true ->
        getting_of w = GettingState.NONE).
Proof.
  apply (X14_stop_asked_for_is_no_error example_env
           [call_startGet 5; socksToRtc_ready 0%nat example_endpoint; call_stopGet]
           0%nat (request_stop (settle_ready fresh_engine)));
    reflexivity.
Defined.

(** ** Between two peers *)

Lemma startGet_id_not_empty env w : startGet_id env w <> "".
Proof. unfold startGet_id, letters_from. cbn. discriminate. Qed.

(** X15: the metadata envelope that a [startGet] sends, handled by any
    session with the type and data it was sent with, leaves that session
    with the sender's proxying id: after it, both [getProxyingId] return
    the same string, whatever the random source gave. *)
Theorem X15_peer_learns_the_proxying_id env remoteVersion wa wb :
  getting_of wa = GettingState.NONE -> socksToRtc_ (conn wa) = None ->
  let wa' := snd (fst (startGet env remoteVersion wa)) in
  let fx := snd (startGet env remoteVersion wa) in
  exists d id s,
    updates_sent fx
    = [SIGNALLING_MESSAGE PeerMessageType.SIGNAL_FROM_CLIENT_PEER d; STATE s]
    /\ getProxyingId (conn wa') = Some id
    /\ getProxyingId
         (conn (snd (fst (handleSignal
                            {| type := PeerMessageType.SIGNAL_FROM_CLIENT_PEER;
                               data := d |} wb))))
       = Some id.
Proof.
  intros Hg Hs wa' fx. subst wa' fx.
  rewrite (startGet_returns env remoteVersion wa Hg Hs). cbn [fst snd].
  eexists. exists (startGet_id env wa). eexists.
  split; [reflexivity |]. split; [reflexivity |].
  rewrite handleSignal_metadata. cbn [truthy].
  destruct (String.eqb_spec (startGet_id env wa) "") as [He | _].
  - destruct (startGet_id_not_empty env wa He).
  - reflexivity.
Qed.

Lemma X15_peer_learns_the_proxying_id_witness :
  let wa' := snd (fst (startGet example_env 5 init)) in
  let fx := snd (startGet example_env 5 init) in
  exists d id s,
    updates_sent fx
    = [SIGNALLING_MESSAGE PeerMessageType.SIGNAL_FROM_CLIENT_PEER d; STATE s]
    /\ getProxyingId (conn wa') = Some id
    /\ getProxyingId
         (conn (snd (fst (handleSignal
                            {| type := PeerMessageType.SIGNAL_FROM_CLIENT_PEER;
                               data := d |}
                            (fst (step example_env (call_startShare 2) init))))))
       = Some id.
Proof.
  apply (X15_peer_learns_the_proxying_id example_env 5 init); reflexivity.
Defined.

(** X16: the object an engine emits is sent on unchanged as [data], as
    coming from the client peer for a getting engine and from the server
    peer for a sharing engine.  When it has a [signals] member, a session
    that handles it with that type hands it, unchanged, to its sharing
    engine (from the client peer) or its getting engine (from the server
    peer), to nothing else, and stays as it was.  When it has no
    [signals] member, [handleSignal] takes it for metadata and no engine
    receives it, whatever engines the session has. *)
Theorem X16_signals_reach_the_other_role env wa e signal payload legacy wb es wc eg :
  rtcToNet_ (conn wb) = Some es -> socksToRtc_ (conn wc) = Some eg ->
  signals signal = Some payload -> signals legacy = None ->
  (forall d,
      updates_sent (snd (step env (socksToRtc_signalForPeer e d) wa))
      = [SIGNALLING_MESSAGE PeerMessageType.SIGNAL_FROM_CLIENT_PEER d]
      /\ updates_sent (snd (step env (rtcToNet_signalForPeer e d) wa))
         = [SIGNALLING_MESSAGE PeerMessageType.SIGNAL_FROM_SERVER_PEER d])
  /\ handleSignal {| type := PeerMessageType.SIGNAL_FROM_CLIENT_PEER; data := signal |} wb
     = (Returned JS_undefined, wb, [RtcToNet_handleSignalFromPeer es signal])
  /\ handleSignal {| type := PeerMessageType.SIGNAL_FROM_SERVER_PEER; data := signal |} wc
     = (Returned JS_undefined, wc, [SocksToRtc_handleSignalFromPeer eg signal])
  /\ (forall ty w,
        handed_over (snd (handleSignal {| type := ty; data := legacy |} w)) = []).
Proof.
  intros Hb Hc Hsig Hleg. split; [| split; [| split]].
  - intros d. split; reflexivity.
  - unfold handleSignal. cbn [data type]. rewrite Hsig.
    unfold forwardSignal_. rewrite bind_this, Hb. reflexivity.
  - unfold handleSignal. cbn [data type]. rewrite Hsig.
    unfold forwardSignal_. rewrite bind_this, Hc.
    destruct (rtcToNet_ (conn wc)); reflexivity.
  - intros ty w. destruct legacy as [sg pi]. cbn [signals] in Hleg. subst sg.
    rewrite handleSignal_metadata. cbn [snd]. destruct (truthy pi); reflexivity.
Qed.

Lemma X16_signals_reach_the_other_role_witness :
  let wa := fst (exec example_env [call_startShare 2; call_startGet 5] init) in
  let signal := {| signals := Some ["offer"]; proxyingId := None |} in
  let legacy := {| signals := None; proxyingId := None |} in
  (forall d,
      updates_sent (snd (step example_env (socksToRtc_signalForPeer 0%nat d) wa))
      = [SIGNALLING_MESSAGE PeerMessageType.SIGNAL_FROM_CLIENT_PEER d]
      /\ updates_sent (snd (step example_env (rtcToNet_signalForPeer 0%nat d) wa))
         = [SIGNALLING_MESSAGE PeerMessageType.SIGNAL_FROM_SERVER_PEER d])
  /\ handleSignal {| type := PeerMessageType.SIGNAL_FROM_CLIENT_PEER; data := signal |} wa
     = (Returned JS_undefined, wa, [RtcToNet_handleSignalFromPeer 0%nat signal])
  /\ handleSignal {| type := PeerMessageType.SIGNAL_FROM_SERVER_PEER; data := signal |} wa
     = (Returned JS_undefined, wa, [SocksToRtc_handleSignalFromPeer 0%nat signal])
  /\ (forall ty w,
        handed_over (snd (handleSignal {| type := ty; data := legacy |} w)) = []).
Proof.
  apply (X16_signals_reach_the_other_role example_env _ _ _ ["offer"]); reflexivity.
Defined.

(** ** What leaves the proxying id alone, and a failure that comes late *)

(** X17: only [startGet] and [handleSignal] write the proxying id: over
    a run with neither call, [getProxyingId] returns at the end what it
    returned at the start. *)
Theorem X17_proxying_id_is_kept env evs w :
  forallb (fun ev => match ev with
                     | call_startGet _ | call_handleSignal _ => false
                     | _ => true
                     end) evs = true ->
  getProxyingId (conn (fst (exec env evs w))) = getProxyingId (conn w).
Proof.
  revert w. induction evs as [| ev evs IH]; intros w Hall; [reflexivity |].
  cbn [forallb] in Hall. apply andb_prop in Hall as [Hev Hall].
  rewrite exec_cons, (IH _ Hall). unfold getProxyingId.
  rewrite step_proxyingId. destruct ev; try reflexivity; discriminate.
Qed.

Lemma X17_proxying_id_is_kept_witness :
  let w := fst (step example_env (call_startGet 5) init) in
  let evs := [socksToRtc_ready 0%nat example_endpoint; call_startShare 2;
              socksToRtc_bytesSentToPeer 0%nat 9; call_stopGet;
              socksToRtc_stopping 0%nat] in
  getProxyingId (conn (fst (exec example_env evs w))) = getProxyingId (conn w).
Proof.
  apply (X17_proxying_id_is_kept example_env). reflexivity.
Defined.

(** X18: the reaction on a sharing engine's failure to get ready calls
    [stopShare] on the session as it is then: when the state is not NONE
    it sets NONE, sends the STATE update and stops the engine referred to
    at that moment, also when the failure is that of another, earlier
    engine. *)
Theorem X18_late_failure_stops_current_engine env w a b cause :
  sharing_of w <> SharingState.NONE -> rtcToNet_ (conn w) = Some b ->
  snd (step env (rtcToNet_failed a cause) w)
  = [sendUpdate (STATE (getCurrentState
                          (set_localSharingWithRemote SharingState.NONE (conn w))));
     RtcToNet_stop b]
  /\ sharing_of (fst (step env (rtcToNet_failed a cause) w)) = SharingState.NONE
  /\ rtcToNets (fst (step env (rtcToNet_failed a cause) w))
     = alter request_stop b (alter settle_ready a (rtcToNets w)).
Proof.
  intros Hs Hr. open_world w. subst.
  unfold step, react, deliver, rtcToNet_onceReady_catch, stopShare. js_run.
  destruct s; [contradiction | |]; repeat split.
Qed.

Lemma X18_late_failure_witness :
  let w := fst (exec example_env
                  [call_startShare 2; rtcToNet_stopped 0%nat; call_startShare 2]
                  init) in
  snd (step example_env (rtcToNet_failed 0%nat (JSError "closed")) w)
  = [sendUpdate (STATE (getCurrentState
                          (set_localSharingWithRemote SharingState.NONE (conn w))));
     RtcToNet_stop 1%nat]
  /\ sharing_of (fst (step example_env (rtcToNet_failed 0%nat (JSError "closed")) w))
     = SharingState.NONE
  /\ rtcToNets (fst (step example_env (rtcToNet_failed 0%nat (JSError "closed")) w))
     = alter request_stop 1%nat (alter settle_ready 0%nat (rtcToNets w)).
Proof.
  apply (X18_late_failure_stops_current_engine example_env);
    vm_compute; first [reflexivity | discriminate].
Defined.

(** ** Getting again after a stop *)



